(** * Calculator.py: equity multiple and IRR of a development project

    A shallow embedding of [calculate_development_returns] together with the
    fragment of Python's numeric semantics it relies on: arbitrary-precision
    integers, IEEE 754 binary64 floats, the built-ins [sum], [abs], [round],
    true division, and exceptions.  The external solver
    [numpy_financial.irr] is not part of the repository; it is a parameter of
    the embedding. *)

From Stdlib Require Import ZArith List Bool String Lia Permutation.
From Stdlib Require Import SpecFloat.
From Stdlib Require Import Ascii DecimalString.
Import ListNotations.
Open Scope Z_scope.

(** ** Exceptions and results *)

(** The exception classes that can reach the function, as far as the
    [except ValueError] clause tells them apart.  [OtherException] stands for
    any class that is not [ValueError] or one of its subclasses. *)
Inductive pyexc : Type :=
| ValueError
| IndexError
| ZeroDivisionError
| OverflowError
| TypeError
| OtherException (cls : string).

Inductive pyresult (A : Type) : Type :=
| Returns (a : A)
| Raises (e : pyexc).
Arguments Returns {A} a.
Arguments Raises {A} e.

Definition bind {A B : Type} (m : pyresult A) (k : A -> pyresult B) : pyresult B :=
  match m with
  | Returns a => k a
  | Raises e => Raises e
  end.

Notation "x <- m ;; k" := (bind m (fun x => k))
  (at level 61, m at next level, right associativity).

(** [try: body except ValueError: handler]. *)
Definition try_except_ValueError {A : Type} (body handler : pyresult A) : pyresult A :=
  match body with
  | Raises ValueError => handler
  | other => other
  end.

(** ** Python numbers *)

Module Py.

(** Python's [float] is IEEE 754 binary64. *)
Definition prec : Z := 53.
Definition emax : Z := 1024.

Definition pyfloat : Type := spec_float.

Inductive pynum : Type :=
| PyInt (z : Z)
| PyFloat (f : pyfloat).

Definition fadd : pyfloat -> pyfloat -> pyfloat := SFadd prec emax.
Definition fsub : pyfloat -> pyfloat -> pyfloat := SFsub prec emax.
Definition fmul : pyfloat -> pyfloat -> pyfloat := SFmul prec emax.
Definition fdiv : pyfloat -> pyfloat -> pyfloat := SFdiv prec emax.

Definition is_infinity (f : pyfloat) : bool :=
  match f with S754_infinity _ => true | _ => false end.

Definition is_zero (f : pyfloat) : bool :=
  match f with S754_zero _ => true | _ => false end.

(** Result of a conversion that must stay in the finite range. *)
Definition finite_or_overflow (f : pyfloat) : pyresult pyfloat :=
  if is_infinity f then Raises OverflowError else Returns f.

(** [float(z)] as the arithmetic operators apply it to an [int] operand:
    round to nearest, ties to even; [OverflowError] beyond the float range. *)
Definition int_to_float (z : Z) : pyresult pyfloat :=
  finite_or_overflow (binary_normalize prec emax z 0 false).

Definition to_float (x : pynum) : pyresult pyfloat :=
  match x with
  | PyInt z => int_to_float z
  | PyFloat f => Returns f
  end.

(** The correctly rounded quotient of two integers, [b <> 0]. *)
Definition int_quotient (a b : Z) : pyfloat :=
  let s := xorb (a <? 0) (b <? 0) in
  match Z.abs a, Z.abs b with
  | Zpos ma, Zpos mb => fdiv (S754_finite s ma 0) (S754_finite false mb 0)
  | _, _ => S754_zero s
  end.

(** Binary arithmetic: two ints stay exact, anything else goes through
    floats. *)
Definition arith (iop : Z -> Z -> Z) (fop : pyfloat -> pyfloat -> pyfloat)
           (x y : pynum) : pyresult pynum :=
  match x, y with
  | PyInt a, PyInt b => Returns (PyInt (iop a b))
  | _, _ =>
      a <- to_float x ;;
      b <- to_float y ;;
      Returns (PyFloat (fop a b))
  end.

Definition add : pynum -> pynum -> pyresult pynum := arith Z.add fadd.
Definition sub : pynum -> pynum -> pyresult pynum := arith Z.sub fsub.
Definition mul : pynum -> pynum -> pyresult pynum := arith Z.mul fmul.

(** [x / y]: always a float. *)
Definition truediv (x y : pynum) : pyresult pynum :=
  match x, y with
  | PyInt a, PyInt b =>
      if b =? 0 then Raises ZeroDivisionError
      else q <- finite_or_overflow (int_quotient a b) ;; Returns (PyFloat q)
  | _, _ =>
      a <- to_float x ;;
      b <- to_float y ;;
      if is_zero b then Raises ZeroDivisionError
      else Returns (PyFloat (fdiv a b))
  end.

(** [abs(x)]. *)
Definition abs (x : pynum) : pynum :=
  match x with
  | PyInt z => PyInt (Z.abs z)
  | PyFloat f => PyFloat (SFabs f)
  end.

(** [-x]. *)
Definition neg (x : pynum) : pynum :=
  match x with
  | PyInt z => PyInt (- z)
  | PyFloat f => PyFloat (SFopp f)
  end.

(** [a <= b] on floats: false when either is NaN. *)
Definition fle : pyfloat -> pyfloat -> bool := SFleb.

(** [x > 0]: false for NaN. *)
Definition gt0 (x : pynum) : bool :=
  match x with
  | PyInt z => 0 <? z
  | PyFloat f => SFltb (S754_zero false) f
  end.

(** [x < 0]: false for NaN and for both zeros. *)
Definition lt0 (x : pynum) : bool :=
  match x with
  | PyInt z => z <? 0
  | PyFloat f => SFltb f (S754_zero false)
  end.

(** Nearest integer to [n / d] for [d > 0], ties to the even one. *)
Definition round_half_even (n d : Z) : Z :=
  let q := n / d in
  let r := n mod d in
  match 2 * r ?= d with
  | Lt => q
  | Gt => q + 1
  | Eq => if Z.even q then q else q + 1
  end.

(** The number of hundredths nearest to the magnitude [m * 2^e]. *)
Definition hundredths (m : positive) (e : Z) : Z :=
  match e with
  | Zneg p => round_half_even (100 * Zpos m) (2 ^ Zpos p)
  | _ => 100 * Zpos m * 2 ^ e
  end.

(** [round(x, 2)] on a float: the exact value is rounded to two decimals,
    ties to even, and the decimal is converted back to the nearest float;
    zeros, infinities and NaN round to themselves. *)
Definition fround2 (x : pyfloat) : pyresult pyfloat :=
  match x with
  | S754_finite s m e =>
      match hundredths m e with
      | Zpos k =>
          finite_or_overflow (fdiv (S754_finite s k 0) (S754_finite false 100 0))
      | _ => Returns (S754_zero s)
      end
  | _ => Returns x
  end.

(** [round(x, 2)]: an int is returned unchanged. *)
Definition round2 (x : pynum) : pyresult pynum :=
  match x with
  | PyInt z => Returns (PyInt z)
  | PyFloat f => r <- fround2 f ;; Returns (PyFloat r)
  end.

(** [sum(items)]: start from the int [0] and add from left to right, as the
    language reference defines it.  (CPython 3.12 and later add runs of
    floats with a compensation term; ints are exact either way, and the
    float sums evaluated below come out the same under both.) *)
Fixpoint sum_from (acc : pynum) (items : list pynum) : pyresult pynum :=
  match items with
  | [] => Returns acc
  | c :: rest => acc' <- add acc c ;; sum_from acc' rest
  end.

Definition sum (items : list pynum) : pyresult pynum := sum_from (PyInt 0) items.

(** [xs[i]] for [i >= 0]. *)
Definition getitem {A : Type} (xs : list A) (i : nat) : pyresult A :=
  match nth_error xs i with
  | Some x => Returns x
  | None => Raises IndexError
  end.

End Py.

Import Py.

(** ** The calculator *)

(** A Python value as the caller receives it in the second component of the
    result: a number, or the placeholder string. *)
Inductive pyval : Type :=
| VNum (x : pynum)
| VStr (s : string).

(** The local variables bound by the equity-multiple block. *)
Record equity_locals : Type := {
  total_distributions : pynum;
  total_profit : pynum;
  equity_multiple : pynum
}.

Definition irr_failed : pyval := VStr "N/A (IRR calculation failed)".

Section Calculator.

(** [numpy_financial.irr]: given the cash flows it returns a Python float
    (NaN included) or raises an exception of some class. *)
Variable npf_irr : list pynum -> pyresult pyfloat.

(** Lines 20-22. *)
Definition equity_block (investor_equity : pynum) (cash_flows : list pynum)
  : pyresult equity_locals :=
  total_distributions <- sum (filter gt0 cash_flows) ;;
  first <- getitem cash_flows 0 ;;
  total_profit <- sub total_distributions (abs first) ;;
  equity_multiple <- truediv total_distributions (abs investor_equity) ;;
  Returns {| total_distributions := total_distributions;
             total_profit := total_profit;
             equity_multiple := equity_multiple |}.

(** Lines 27-31. *)
Definition irr_block (cash_flows : list pynum) : pyresult pyval :=
  try_except_ValueError
    (irr <- npf_irr cash_flows ;;
     scaled <- mul (PyFloat irr) (PyInt 100) ;;
     irr_percentage <- round2 scaled ;;
     Returns (VNum irr_percentage))
    (Returns irr_failed).

Definition calculate_development_returns
           (investor_equity : pynum) (cash_flows : list pynum)
  : pyresult (pynum * pyval) :=
  locals <- equity_block investor_equity cash_flows ;;
  irr_percentage <- irr_block cash_flows ;;
  rounded <- round2 (equity_multiple locals) ;;
  Returns (rounded, irr_percentage).

End Calculator.

(** Stand-ins for the solver, used to run the function on concrete inputs. *)
Definition irr_returning (r : pyfloat) : list pynum -> pyresult pyfloat :=
  fun _ => Returns r.

Definition irr_raising (e : pyexc) : list pynum -> pyresult pyfloat :=
  fun _ => Raises e.

(** ** The spec's reading of the equity multiple *)

(** Total distributions in the spec's words: walk the sequence and add every
    entry that satisfies [value > 0], whatever its position. *)
Fixpoint spec_total_distributions (acc : pynum) (cash_flows : list pynum)
  : pyresult pynum :=
  match cash_flows with
  | [] => Returns acc
  | value :: later =>
      if gt0 value
      then acc' <- add acc value ;; spec_total_distributions acc' later
      else spec_total_distributions acc later
  end.

(** A float that is NaN or has its sign bit clear. *)
Definition sign_clear (f : pyfloat) : Prop :=
  match f with
  | S754_nan => True
  | S754_zero s | S754_infinity s | S754_finite s _ _ => s = false
  end.

(** A number that is an int [>= 0], or a float that is NaN or has its sign
    bit clear. *)
Definition nonneg (x : pynum) : Prop :=
  match x with
  | PyInt z => 0 <= z
  | PyFloat f => sign_clear f
  end.

Definition is_float (x : pynum) : Prop :=
  match x with PyFloat _ => True | PyInt _ => False end.

(** Starting from the int [0], a sum of floats is the int [0] or a float. *)
Definition zero_or_float (x : pynum) : Prop := x = PyInt 0 \/ is_float x.

(** Integer cash flows: the strictly positive entries, and a total. *)
Definition positive_entries (flows : list Z) : list Z := filter (fun z => 0 <? z) flows.

Definition list_total (flows : list Z) : Z := fold_right Z.add 0 flows.

(** [x == 0]: true for the int [0] and for both float zeros. *)
Definition eq0 (x : pynum) : bool :=
  match x with
  | PyInt z => z =? 0
  | PyFloat f => is_zero f
  end.

(** A float whose magnitude, when finite, is below [2^top]: its mantissa has
    at most [top - e] binary digits. *)
Definition below_pow2 (top : Z) (f : pyfloat) : Prop :=
  match f with
  | S754_finite _ m e => Zdigits2 (Zpos m) + e <= top
  | _ => True
  end.

(** ** Decimal literals and the example of the script *)

(** The float a decimal literal [n / 10^k] denotes: the nearest one. *)
Definition decimal (n : Z) (k : nat) : pyfloat := int_quotient n (10 ^ Z.of_nat k).

Definition float_nan : pyfloat := S754_nan.
Definition float_zero : pyfloat := S754_zero false.
Definition float_1_62 : pyfloat := decimal 162 2.
Definition float_27_48 : pyfloat := decimal 2748 2.

(** [CASH_FLOW_STREAM] of the script, with [abs(INVESTOR_EQUITY)] as equity. *)
Definition INVESTOR_EQUITY : pynum := PyInt (-400000).
Definition CASH_FLOW_STREAM : list pynum := [INVESTOR_EQUITY; PyInt 0; PyInt 650000].

(** The sign of the net present value of integer cash flows at the rate
    [n / d] with [0 < d + n]: the value itself times [(d + n)^N / d^N], where
    [N = length cash_flows - 1]; the entry of period [i] is discounted by
    [(1 + n/d)^i]. *)
Fixpoint npv_scaled (cash_flows : list Z) (n d : Z) : Z :=
  match cash_flows with
  | [] => 0
  | c :: later =>
      c * (d + n) ^ Z.of_nat (List.length later) + d * npv_scaled later n d
  end.

(** ** The function inside the caller's world *)

(** What the function could touch besides its arguments: the list object
    the caller passed, and the console. *)
Record world : Type := {
  cash_flows_object : list pynum;
  stdout : list string
}.

Definition action (A : Type) : Type := world -> pyresult A * world.

Definition act_ret {A : Type} (a : A) : action A := fun w => (Returns a, w).

Definition act_bind {A B : Type} (m : action A) (k : A -> action B) : action B :=
  fun w =>
    match m w with
    | (Returns a, w') => k a w'
    | (Raises e, w') => (Raises e, w')
    end.

Definition act_lift {A : Type} (r : pyresult A) : action A := fun w => (r, w).

(** Reading the items of the list object. *)
Definition read_items : action (list pynum) :=
  fun w => (Returns (cash_flows_object w), w).

Definition act_try_except_ValueError {A : Type} (body handler : action A) : action A :=
  fun w =>
    match body w with
    | (Raises ValueError, w') => handler w'
    | other => other
    end.

Notation "x <~ m ;; k" := (act_bind m (fun x => k))
  (at level 61, m at next level, right associativity).

(** What a callee that is handed the list object can be said to respect: it
    hands the world back as it found it, and its outcome is decided by the
    items of the list. *)
Definition leaves_world {A : Type} (m : action A) : Prop :=
  forall w, snd (m w) = w.

Definition reads_items_only {A : Type} (m : action A) : Prop :=
  forall w1 w2, cash_flows_object w1 = cash_flows_object w2 -> fst (m w1) = fst (m w2).

Section CalculatorInWorld.

(** [npf.irr(cash_flows)], line 28: the callee receives the caller's list
    object itself, not a copy of its items, so it runs in the caller's
    world, where it can read the list, change it, and write to the
    console. *)
Variable npf_irr : action pyfloat.

Definition calculate_development_returns_in (investor_equity : pynum)
  : action (pynum * pyval) :=
  items <~ read_items ;;
  total_distributions <~ act_lift (sum (filter gt0 items)) ;;
  items0 <~ read_items ;;
  first <~ act_lift (getitem items0 0) ;;
  total_profit <~ act_lift (sub total_distributions (abs first)) ;;
  equity_multiple <~ act_lift (truediv total_distributions (abs investor_equity)) ;;
  irr_percentage <~
    act_try_except_ValueError
      (irr <~ npf_irr ;;
       scaled <~ act_lift (mul (PyFloat irr) (PyInt 100)) ;;
       irr_percentage <~ act_lift (round2 scaled) ;;
       act_ret (VNum irr_percentage))
      (act_ret irr_failed) ;;
  rounded <~ act_lift (round2 equity_multiple) ;;
  act_ret (rounded, irr_percentage).

End CalculatorInWorld.

(** A solver that computes its answer from the items of the list and does
    nothing else. *)
Definition only_reading (npf_irr : list pynum -> pyresult pyfloat) : action pyfloat :=
  items <~ read_items ;; act_lift (npf_irr items).

(** ** The script around the function *)

(** The decimal digits of a natural number. *)
Definition digits_of (n : Z) : string := NilZero.string_of_uint (N.to_uint (Z.to_N n)).

(** How many decimal digits an int has, its sign apart. *)
Definition decimal_digits (z : Z) : Z := Z.of_nat (String.length (digits_of (Z.abs z))).

(** [sys.int_max_str_digits], at its default. *)
Definition int_max_str_digits : Z := 4300.

(** [str(z)] for an int, which is also what [{z}] puts in an f-string.
    Since CPython 3.11 (and the security releases of 3.7 to 3.10) the
    conversion raises [ValueError] for an int of more digits than
    [sys.int_max_str_digits]; earlier interpreters convert every int. *)
Definition str_int (z : Z) : pyresult string :=
  if int_max_str_digits <? decimal_digits z then Raises ValueError
  else Returns (NilZero.string_of_int (Z.to_int z)).

(** Commas between groups of three digits, on the digits in reverse order. *)
Fixpoint group_reversed (digits : list ascii) : list ascii :=
  match digits with
  | a :: b :: c :: rest =>
      match rest with
      | [] => digits
      | _ :: _ => a :: b :: c :: ","%char :: group_reversed rest
      end
  | _ => digits
  end.

Definition group_thousands (digits : string) : string :=
  string_of_list_ascii (rev (group_reversed (rev (list_ascii_of_string digits)))).

(** The integer nearest to the magnitude [m * 2^e], ties to even. *)
Definition units (m : positive) (e : Z) : Z :=
  match e with
  | Zneg p => round_half_even (Zpos m) (2 ^ Zpos p)
  | _ => Zpos m * 2 ^ e
  end.

Definition minus_sign (s : bool) : string := if s then "-"%string else ""%string.

(** [format(x, ",.0f")] on a float: no decimals, thousands separated. *)
Definition format_float_comma_0f (x : pyfloat) : string :=
  match x with
  | S754_nan => "nan"
  | S754_infinity s => minus_sign s ++ "inf"
  | S754_zero s => minus_sign s ++ "0"
  | S754_finite s m e => minus_sign s ++ group_thousands (digits_of (units m e))
  end.

(** [format(x, ",.0f")]: an int is converted to a float first. *)
Definition format_comma_0f (x : pynum) : pyresult string :=
  f <- to_float x ;; Returns (format_float_comma_0f f).

(** [s * n]. *)
Fixpoint repeat_string (s : string) (n : nat) : string :=
  match n with
  | O => ""
  | S n' => s ++ repeat_string s n'
  end.

(** [xs[-1]]. *)
Definition getitem_last {A : Type} (xs : list A) : pyresult A :=
  match rev xs with
  | x :: _ => Returns x
  | [] => Raises IndexError
  end.

(** [print(line)]. *)
Definition print (line : string) : action unit :=
  fun w => (Returns tt, {| cash_flows_object := cash_flows_object w;
                           stdout := stdout w ++ [line] |}).

(** Binding the list display [[a, b, c]] to [CASH_FLOW_STREAM]. *)
Definition new_cash_flows (items : list pynum) : action unit :=
  fun w => (Returns tt, {| cash_flows_object := items; stdout := stdout w |}).

Section Script.

(** The solver of the script's one call, taken as computing from the items
    only. *)
Variable npf_irr : list pynum -> pyresult pyfloat.

(** [str(x)] of a float, the shortest decimal that reads back as [x]: a
    built-in that is not modelled. *)
Variable str_float : pyfloat -> string.

Definition str_num (x : pynum) : pyresult string :=
  match x with
  | PyInt z => str_int z
  | PyFloat f => Returns (str_float f)
  end.

(** What [{irr}] puts in the line: the number, or the string itself. *)
Definition str_val (v : pyval) : pyresult string :=
  match v with
  | VNum x => str_num x
  | VStr s => Returns s
  end.

(** The expression of the last line, [CASH_FLOW_STREAM[-1] - abs(INVESTOR_EQUITY)]. *)
Definition printed_total_profit (investor_equity : pynum) (items : list pynum)
  : pyresult pynum :=
  last <- getitem_last items ;;
  sub last (abs investor_equity).

(** Lines 44-72, with the int constants of the assignments as arguments:
    [INVESTOR_EQUITY], [PROJECT_DURATION_YEARS], and the cash flows of year 1
    and year 2.  Each f-string is built before its line is printed. *)
Definition script (investor_equity project_duration_years year_1 year_2 : Z)
  : action unit :=
  _ <~ new_cash_flows [PyInt investor_equity; PyInt year_1; PyInt year_2] ;;
  result <~ calculate_development_returns_in (only_reading npf_irr)
              (abs (PyInt investor_equity)) ;;
  _ <~ print "--- Real Estate Investment Pro Forma ---" ;;
  equity_text <~ act_lift (format_comma_0f (abs (PyInt investor_equity))) ;;
  _ <~ print ("Initial Investor Equity: $" ++ equity_text) ;;
  duration_text <~ act_lift (str_int project_duration_years) ;;
  _ <~ print ("Total Project Duration: " ++ duration_text ++ " years") ;;
  _ <~ print (repeat_string "-" 35) ;;
  em_text <~ act_lift (str_num (fst result)) ;;
  _ <~ print ("Equity Multiple (EM): " ++ em_text ++ "x") ;;
  irr_text <~ act_lift (str_val (snd result)) ;;
  _ <~ print ("Internal Rate of Return (IRR): " ++ irr_text ++ "%") ;;
  items <~ read_items ;;
  profit <~ act_lift (printed_total_profit (PyInt investor_equity) items) ;;
  profit_text <~ act_lift (format_comma_0f profit) ;;
  print ("Total Profit: $" ++ profit_text).

(** The world once the list display is bound. *)
Definition with_stream (investor_equity year_1 year_2 : Z) (w : world) : world :=
  {| cash_flows_object := [PyInt investor_equity; PyInt year_1; PyInt year_2];
     stdout := stdout w |}.

(** The seven lines of a complete run. *)
Definition report (equity_text duration_text em_text irr_text profit_text : string)
  : list string :=
  [ "--- Real Estate Investment Pro Forma ---";
    "Initial Investor Equity: $" ++ equity_text;
    "Total Project Duration: " ++ duration_text ++ " years";
    repeat_string "-" 35;
    "Equity Multiple (EM): " ++ em_text ++ "x";
    "Internal Rate of Return (IRR): " ++ irr_text ++ "%";
    "Total Profit: $" ++ profit_text ]%string.

End Script.

(** ** Generic facts about results *)

Lemma bind_Returns_inv {A B : Type} (m : pyresult A) (k : A -> pyresult B) (b : B) :
  bind m k = Returns b -> exists a, m = Returns a /\ k a = Returns b.
Proof.
  destruct m as [a|e]; simpl; intros H; [eauto | discriminate].
Qed.

Lemma bind_Raises_inv {A B : Type} (m : pyresult A) (k : A -> pyresult B) (x : pyexc) :
  bind m k = Raises x -> m = Raises x \/ exists a, m = Returns a /\ k a = Raises x.
Proof.
  destruct m as [a|e]; simpl; intros H; [right; eauto | left; congruence].
Qed.

Ltac bind_inv H :=
  let a := fresh "v" in
  let Ha := fresh "Hv" in
  apply bind_Returns_inv in H; destruct H as (a & Ha & H).

(** ** Which exceptions the numeric operations raise *)

Lemma finite_or_overflow_Raises (f : pyfloat) (x : pyexc) :
  finite_or_overflow f = Raises x -> x = OverflowError.
Proof.
  unfold finite_or_overflow; destruct (is_infinity f); congruence.
Qed.

Lemma to_float_Raises (n : pynum) (x : pyexc) :
  to_float n = Raises x -> x = OverflowError.
Proof.
  destruct n; simpl; [apply finite_or_overflow_Raises | discriminate].
Qed.

Lemma arith_Raises iop fop (a b : pynum) (x : pyexc) :
  arith iop fop a b = Raises x -> x = OverflowError.
Proof.
  unfold arith; intros H.
  destruct a as [za|fa], b as [zb|fb]; try discriminate;
    apply bind_Raises_inv in H; destruct H as [H|(v & _ & H)];
    try (apply to_float_Raises in H; exact H);
    apply bind_Raises_inv in H; destruct H as [H|(w & _ & H)];
    try (apply to_float_Raises in H; exact H); discriminate.
Qed.

Lemma truediv_Raises (a b : pynum) (x : pyexc) :
  truediv a b = Raises x -> x = OverflowError \/ x = ZeroDivisionError.
Proof.
  assert (G : forall fa fb : pyresult pyfloat,
             (forall y, fa = Raises y -> y = OverflowError) ->
             (forall y, fb = Raises y -> y = OverflowError) ->
             (a' <- fa ;; b' <- fb ;;
              if is_zero b' then Raises ZeroDivisionError
              else Returns (PyFloat (fdiv a' b'))) = Raises x ->
             x = OverflowError \/ x = ZeroDivisionError).
  { intros fa fb Ha Hb H.
    apply bind_Raises_inv in H; destruct H as [H|(v & _ & H)]; [left; eauto|].
    apply bind_Raises_inv in H; destruct H as [H|(w & _ & H)]; [left; eauto|].
    destruct (is_zero w); [right; congruence | discriminate]. }
  unfold truediv; intros H.
  destruct a as [za|fa], b as [zb|fb].
  - destruct (zb =? 0); [right; congruence|].
    apply bind_Raises_inv in H; destruct H as [H|(v & _ & H)]; [|discriminate].
    left; eapply finite_or_overflow_Raises; eauto.
  - eapply G; [| |exact H]; intros y; apply to_float_Raises.
  - eapply G; [| |exact H]; intros y; apply to_float_Raises.
  - eapply G; [| |exact H]; intros y; apply to_float_Raises.
Qed.

Lemma fround2_Raises (f : pyfloat) (x : pyexc) :
  fround2 f = Raises x -> x = OverflowError.
Proof.
  destruct f; simpl; try discriminate.
  destruct (hundredths m e); try discriminate.
  apply finite_or_overflow_Raises.
Qed.

Lemma round2_Raises (n : pynum) (x : pyexc) :
  round2 n = Raises x -> x = OverflowError.
Proof.
  destruct n; simpl; [discriminate|]; intros H.
  apply bind_Raises_inv in H; destruct H as [H|(v & _ & H)]; [|discriminate].
  eapply fround2_Raises; eauto.
Qed.

Lemma sum_from_Raises (items : list pynum) :
  forall acc x, sum_from acc items = Raises x -> x = OverflowError.
Proof.
  induction items as [|c rest IH]; simpl; intros acc x H; [discriminate|].
  apply bind_Raises_inv in H; destruct H as [H|(v & _ & H)].
  - eapply arith_Raises; exact H.
  - eapply IH; exact H.
Qed.

(** ** Facts about binary64 rounding *)

Lemma emin_binary64 : emin prec emax = -1074.
Proof. reflexivity. Qed.

Lemma fexp_binary64 (x : Z) : fexp prec emax x = Z.max (x - 53) (-1074).
Proof. reflexivity. Qed.

Lemma digits2_pos_bounds (p : positive) :
  2 ^ (Zpos (digits2_pos p) - 1) <= Zpos p < 2 ^ Zpos (digits2_pos p).
Proof.
  induction p as [p IH|p IH|]; simpl digits2_pos.
  - rewrite Pos2Z.inj_succ. change (Zpos p~1) with (2 * Zpos p + 1).
    replace (Z.succ (Zpos (digits2_pos p)) - 1) with (Z.succ (Zpos (digits2_pos p) - 1)) by lia.
    rewrite !Z.pow_succ_r by lia.
    generalize dependent (2 ^ (Zpos (digits2_pos p) - 1)).
    generalize dependent (2 ^ Zpos (digits2_pos p)). intros; lia.
  - rewrite Pos2Z.inj_succ. change (Zpos p~0) with (2 * Zpos p).
    replace (Z.succ (Zpos (digits2_pos p)) - 1) with (Z.succ (Zpos (digits2_pos p) - 1)) by lia.
    rewrite !Z.pow_succ_r by lia.
    generalize dependent (2 ^ (Zpos (digits2_pos p) - 1)).
    generalize dependent (2 ^ Zpos (digits2_pos p)). intros; lia.
  - split; [apply Z.leb_le | apply Z.ltb_lt]; reflexivity.
Qed.

Lemma Zdigits2_unique (m d : Z) :
  2 ^ (d - 1) <= m < 2 ^ d -> 0 < m -> Zdigits2 m = d.
Proof.
  intros [Hlo Hhi] Hm.
  destruct m as [|p|p]; try lia. simpl.
  pose proof (digits2_pos_bounds p) as [Plo Phi].
  set (d' := Zpos (digits2_pos p)) in *.
  destruct (Z.lt_trichotomy d' d) as [Hlt|[Heq|Hgt]]; [|exact Heq|].
  - assert (2 ^ d' <= 2 ^ (d - 1)) by (apply Z.pow_le_mono_r; lia). lia.
  - assert (0 <= d \/ d < 0) as [Hd|Hd] by lia.
    + assert (2 ^ d <= 2 ^ (d' - 1)) by (apply Z.pow_le_mono_r; lia). lia.
    + rewrite (Z.pow_neg_r 2 d) in Hhi by lia. lia.
Qed.

Lemma shr_1_m (r : shr_record) :
  0 <= shr_m r -> shr_m (shr_1 r) = shr_m r / 2.
Proof.
  destruct r as [m rr ss]; simpl; intros Hm.
  rewrite <- Z.div2_div.
  destruct m as [|[p|p|]|p]; try reflexivity; lia.
Qed.

Lemma iter_shr_1_m (n : positive) :
  forall r, 0 <= shr_m r -> shr_m (iter_pos shr_1 n r) = shr_m r / 2 ^ Zpos n.
Proof.
  assert (P : forall k, 0 < 2 ^ Zpos k) by (intros; apply Z.pow_pos_nonneg; lia).
  induction n as [n IH|n IH|]; intros r Hr; simpl iter_pos.
  - assert (H1 : 0 <= shr_m (shr_1 r)) by (rewrite shr_1_m by lia; apply Z.div_pos; lia).
    assert (H2 : 0 <= shr_m (iter_pos shr_1 n (shr_1 r)))
      by (rewrite IH by lia; apply Z.div_pos; [lia | apply P]).
    rewrite IH, IH, shr_1_m by lia.
    replace (Zpos n~1) with (1 + Zpos n + Zpos n) by lia.
    rewrite !Z.pow_add_r, Z.pow_1_r by lia.
    pose proof (P n).
    rewrite !Z.div_div by nia. f_equal; ring.
  - assert (H2 : 0 <= shr_m (iter_pos shr_1 n r))
      by (rewrite IH by lia; apply Z.div_pos; [lia | apply P]).
    rewrite IH, IH by lia.
    replace (Zpos n~0) with (Zpos n + Zpos n) by lia.
    rewrite !Z.pow_add_r by lia.
    pose proof (P n).
    rewrite !Z.div_div by nia. f_equal; ring.
  - rewrite shr_1_m by lia. reflexivity.
Qed.

Lemma shr_record_of_loc_m (m : Z) (l : location) :
  shr_m (shr_record_of_loc m l) = m.
Proof. destruct l as [|[ | | ]]; reflexivity. Qed.

(** The mantissa and exponent after the shift that [shr_fexp] performs. *)
Lemma shr_fexp_spec (m e : Z) (l : location) :
  0 <= m ->
  let n := fexp prec emax (Zdigits2 m + e) - e in
  shr_m (fst (shr_fexp prec emax m e l)) = (if 0 <? n then m / 2 ^ n else m) /\
  snd (shr_fexp prec emax m e l) = (if 0 <? n then e + n else e).
Proof.
  intros Hm n. unfold shr_fexp. fold n. unfold shr.
  destruct n as [|p|p]; simpl fst; simpl snd.
  - rewrite shr_record_of_loc_m. split; reflexivity.
  - rewrite iter_shr_1_m by (rewrite shr_record_of_loc_m; lia).
    rewrite shr_record_of_loc_m. split; reflexivity.
  - rewrite shr_record_of_loc_m. split; reflexivity.
Qed.

Lemma round_nearest_even_bracket (m : Z) (l : location) :
  m <= round_nearest_even m l <= m + 1.
Proof.
  destruct l as [|[ | | ]]; simpl; try lia.
  destruct (Z.even m); lia.
Qed.

(** Above the subnormal exponent a positive mantissa stays positive when it
    is shifted into place. *)
Lemma shr_fexp_positive (m e : Z) (l : location) :
  0 < m -> -1074 <= e ->
  0 < shr_m (fst (shr_fexp prec emax m e l)) /\
  -1074 <= snd (shr_fexp prec emax m e l).
Proof.
  intros Hm He.
  destruct (shr_fexp_spec m e l) as [Hs He']; [lia|].
  rewrite Hs, He'. clear Hs He'.
  unfold fexp; rewrite emin_binary64; unfold prec.
  destruct m as [|p|p]; try lia. simpl Zdigits2.
  pose proof (digits2_pos_bounds p) as [Plo _].
  set (d := Zpos (digits2_pos p)) in *.
  destruct (0 <? Z.max (d + e - 53) (-1074) - e) eqn:Hn; [|lia].
  apply Z.ltb_lt in Hn.
  assert (Hmax : Z.max (d + e - 53) (-1074) - e = d - 53) by lia.
  rewrite Hmax. split; [|lia].
  apply Z.lt_le_trans with 1; [lia|].
  apply Z.div_le_lower_bound; [apply Z.pow_pos_nonneg; lia|].
  assert (2 ^ (d - 53) <= 2 ^ (d - 1)) by (apply Z.pow_le_mono_r; lia). lia.
Qed.

Lemma binary_round_aux_not_zero (s : bool) (m e : Z) (l : location) :
  0 < m -> -1074 <= e ->
  is_zero (binary_round_aux prec emax s m e l) = false.
Proof.
  intros Hm He. unfold binary_round_aux.
  pose proof (shr_fexp_positive m e l Hm He) as [H1 H1e].
  destruct (shr_fexp prec emax m e l) as [r1 e1]. simpl fst in *; simpl snd in *.
  pose proof (round_nearest_even_bracket (shr_m r1) (loc_of_shr_record r1)) as Hr.
  set (m1 := round_nearest_even (shr_m r1) (loc_of_shr_record r1)) in *.
  pose proof (shr_fexp_positive m1 e1 loc_Exact ltac:(lia) H1e) as [H2 _].
  destruct (shr_fexp prec emax m1 e1 loc_Exact) as [r2 e2]. simpl fst in *.
  destruct (shr_m r2); try lia.
  destruct (e2 <=? emax - prec); reflexivity.
Qed.

Lemma int_to_float_not_zero (z : Z) (f : pyfloat) :
  z <> 0 -> int_to_float z = Returns f -> is_zero f = false.
Proof.
  intros Hz H. unfold int_to_float, finite_or_overflow in H.
  destruct (is_infinity _); [discriminate|]. injection H as <-.
  assert (G : forall s p, is_zero (binary_round prec emax s p 0) = false).
  { intros s p. unfold binary_round, shl_align.
    assert (Hf : -1074 <= fexp prec emax (Zpos (digits2_pos p) + 0))
      by (unfold fexp; rewrite emin_binary64; lia).
    destruct (fexp prec emax (Zpos (digits2_pos p) + 0) - 0) eqn:E;
      apply binary_round_aux_not_zero; lia. }
  destruct z as [|p|p]; [lia| |]; apply G.
Qed.

Lemma Zdigits2_le (m k : Z) :
  0 <= m < 2 ^ k -> 0 <= k -> Zdigits2 m <= k.
Proof.
  intros [Hm Hk] Hk0. destruct m as [|p|p]; simpl; try lia.
  pose proof (digits2_pos_bounds p) as [Plo _].
  set (d := Zpos (digits2_pos p)) in *.
  destruct (Z.le_gt_cases d k) as [H|H]; [exact H|].
  assert (2 ^ k <= 2 ^ (d - 1)) by (apply Z.pow_le_mono_r; lia). lia.
Qed.

(** One shift of [shr_fexp] keeps a magnitude below [2^top] below it, and
    leaves the exponent under the largest one. *)
Lemma shr_fexp_bounded (m e k top : Z) (l : location) :
  0 <= m < 2 ^ k -> 0 <= k -> k + e <= top -> 0 <= top <= 1024 -> e <= 971 ->
  exists k1,
    0 <= shr_m (fst (shr_fexp prec emax m e l)) < 2 ^ k1 /\ 0 <= k1 /\
    k1 + snd (shr_fexp prec emax m e l) <= top /\
    snd (shr_fexp prec emax m e l) <= 971.
Proof.
  intros Hm Hk Hke Htop He.
  destruct (shr_fexp_spec m e l ltac:(lia)) as [H1 H1e].
  rewrite H1, H1e. clear H1 H1e. rewrite fexp_binary64.
  pose proof (Zdigits2_le m k Hm Hk) as Hd.
  set (d := Zdigits2 m) in *.
  set (n := Z.max (d + e - 53) (-1074) - e).
  destruct (0 <? n) eqn:E.
  - apply Z.ltb_lt in E.
    assert (P : 0 < 2 ^ n) by (apply Z.pow_pos_nonneg; lia).
    destruct (Z.le_gt_cases n k) as [Hnk|Hnk].
    + exists (k - n). split; [split|split; [lia|split; lia]].
      * apply Z.div_pos; lia.
      * apply Z.div_lt_upper_bound; [exact P|].
        rewrite <- Z.pow_add_r by lia. replace (n + (k - n)) with k by lia. lia.
    + exists 0. split; [split|split; [lia|split; lia]].
      * apply Z.div_pos; lia.
      * apply Z.div_lt_upper_bound; [exact P|].
        assert (2 ^ k <= 2 ^ n) by (apply Z.pow_le_mono_r; lia).
        change (2 ^ 0) with 1. lia.
  - exists k. split; [lia|split; [lia|split; lia]].
Qed.

Lemma binary_round_aux_finite (s : bool) (m e k : Z) (l : location) :
  0 <= m < 2 ^ k -> 0 <= k -> k + e <= 1023 -> e <= 971 ->
  is_infinity (binary_round_aux prec emax s m e l) = false.
Proof.
  intros Hm Hk Hke He. unfold binary_round_aux.
  destruct (shr_fexp_bounded m e k 1023 l Hm Hk Hke ltac:(lia) He)
    as (k1 & Hm1 & Hk1 & Hke1 & He1).
  destruct (shr_fexp prec emax m e l) as [r1 e1]. simpl fst in *; simpl snd in *.
  pose proof (round_nearest_even_bracket (shr_m r1) (loc_of_shr_record r1)) as Hr.
  set (m1 := round_nearest_even (shr_m r1) (loc_of_shr_record r1)) in *.
  assert (Hm1' : 0 <= m1 < 2 ^ (k1 + 1)).
  { rewrite Z.pow_add_r, Z.pow_1_r by lia. lia. }
  destruct (shr_fexp_bounded m1 e1 (k1 + 1) 1024 loc_Exact Hm1' ltac:(lia) ltac:(lia)
              ltac:(lia) He1) as (k2 & Hm2 & _ & _ & He2).
  destruct (shr_fexp prec emax m1 e1 loc_Exact) as [r2 e2]. simpl fst in *; simpl snd in *.
  destruct (shr_m r2); try reflexivity.
  replace (e2 <=? emax - prec) with true; [reflexivity|].
  symmetry. apply Z.leb_le. unfold emax, prec. lia.
Qed.

(** The quotient of a non-negative int below [2^1023] by a positive int fits
    in a float. *)
Lemma int_quotient_finite (a b : Z) :
  0 <= a < 2 ^ 1023 -> 0 < b -> is_infinity (int_quotient a b) = false.
Proof.
  intros Ha Hb. unfold int_quotient.
  destruct (Z.abs a) as [|ma|ma] eqn:Ea; try reflexivity.
  destruct (Z.abs b) as [|mb|mb] eqn:Eb; try reflexivity.
  assert (Ha' : a = Zpos ma) by lia. assert (Hb' : b = Zpos mb) by lia.
  unfold fdiv, SFdiv, SFdiv_core_binary.
  set (e' := Z.min (fexp prec emax (Zdigits2 (Zpos ma) + 0 - (Zdigits2 (Zpos mb) + 0))) (0 - 0)).
  assert (He' : e' <= 0) by (unfold e'; lia).
  pose proof (Zdigits2_le (Zpos ma) 1023 ltac:(lia) ltac:(lia)) as Hd.
  pose proof (digits2_pos_bounds ma) as [_ Hma].
  change (Zpos (digits2_pos ma)) with (Zdigits2 (Zpos ma)) in Hma.
  set (d := Zdigits2 (Zpos ma)) in *.
  assert (Hd0 : 0 < d) by (unfold d; simpl; lia).
  set (m' := match 0 - 0 - e' with Zpos _ => Z.shiftl (Zpos ma) (0 - 0 - e') | Z0 => Zpos ma | Zneg _ => 0 end).
  assert (Hm' : 0 <= m' < 2 ^ (d - e')).
  { unfold m'. destruct (0 - 0 - e') as [|p|p] eqn:E; try lia.
    - replace (d - e') with d by lia. lia.
    - rewrite Z.shiftl_mul_pow2 by lia. rewrite <- E.
      replace (d - e') with (d + (0 - 0 - e')) by lia.
      rewrite Z.pow_add_r by lia.
      assert (0 < 2 ^ (0 - 0 - e')) by (apply Z.pow_pos_nonneg; lia). nia. }
  destruct (Z.div_eucl m' (Zpos mb)) as [q r] eqn:Eq.
  assert (Hq : q = m' / Zpos mb) by (unfold Z.div; rewrite Eq; reflexivity).
  assert (Hq0 : 0 <= q) by (rewrite Hq; apply Z.div_pos; lia).
  assert (Hqm : q <= m').
  { rewrite Hq. apply Z.div_le_upper_bound; [lia | nia]. }
  apply (binary_round_aux_finite _ q e' (d - e')); lia.
Qed.

(** ** Facts about [abs], the sign test and the summation *)

Lemma gt0_float_shape (f : pyfloat) :
  gt0 (PyFloat f) = true ->
  f = S754_infinity false \/ exists m e, f = S754_finite false m e.
Proof.
  destruct f as [s|s| |s m e]; simpl; unfold SFltb; simpl; try discriminate;
    destruct s; try discriminate; eauto.
Qed.

Lemma abs_of_positive (x : pynum) : gt0 x = true -> abs x = x.
Proof.
  destruct x as [z|f]; intros H.
  - simpl in H. apply Z.ltb_lt in H. simpl. f_equal. lia.
  - apply gt0_float_shape in H. destruct H as [->|(m & e & ->)]; reflexivity.
Qed.

Lemma abs_neg (x : pynum) : abs (neg x) = abs x.
Proof.
  destruct x as [z|f]; simpl.
  - f_equal. lia.
  - destruct f; reflexivity.
Qed.

Lemma sum_from_filter (cash_flows : list pynum) :
  forall acc, sum_from acc (filter gt0 cash_flows) = spec_total_distributions acc cash_flows.
Proof.
  induction cash_flows as [|c rest IH]; intros acc; simpl; [reflexivity|].
  destruct (gt0 c); simpl; [|apply IH].
  destruct (add acc c); simpl; [apply IH | reflexivity].
Qed.

(** The function returns exactly when its three stages return. *)
Lemma calculate_development_returns_inv npf_irr investor_equity cash_flows em irr :
  calculate_development_returns npf_irr investor_equity cash_flows = Returns (em, irr) ->
  exists locals,
    equity_block investor_equity cash_flows = Returns locals /\
    irr_block npf_irr cash_flows = Returns irr /\
    round2 (equity_multiple locals) = Returns em.
Proof.
  unfold calculate_development_returns; intros H.
  bind_inv H. bind_inv H. bind_inv H. injection H as <- <-. eauto.
Qed.

Lemma equity_block_inv investor_equity cash_flows locals :
  equity_block investor_equity cash_flows = Returns locals ->
  exists first,
    sum (filter gt0 cash_flows) = Returns (total_distributions locals) /\
    getitem cash_flows 0 = Returns first /\
    sub (total_distributions locals) (abs first) = Returns (total_profit locals) /\
    truediv (total_distributions locals) (abs investor_equity)
      = Returns (equity_multiple locals).
Proof.
  unfold equity_block; intros H.
  bind_inv H. bind_inv H. bind_inv H. bind_inv H. injection H as <-. simpl. eauto.
Qed.

(** ** C1 *)

(** C1. For every cash-flow sequence with at least two entries and every
    positive investor equity, the function returns [(em, irr)] exactly when
    [em] is [round(total / investor_equity, 2)], where [total] is obtained by
    adding, from the start of the sequence, every entry that satisfies
    [value > 0], whatever its position, and the two computations whose
    values do not enter [em] return as well: the total profit and the IRR
    block, which returns [irr]. *)
Theorem equity_multiple_is_rounded_ratio :
  forall npf_irr investor_equity cash_flows em irr,
    (2 <= List.length cash_flows)%nat ->
    gt0 investor_equity = true ->
    (calculate_development_returns npf_irr investor_equity cash_flows = Returns (em, irr)
     <->
     exists total ratio profit,
       spec_total_distributions (PyInt 0) cash_flows = Returns total /\
       truediv total investor_equity = Returns ratio /\
       round2 ratio = Returns em /\
       sub total (abs (hd (PyInt 0) cash_flows)) = Returns profit /\
       irr_block npf_irr cash_flows = Returns irr).
Proof.
  intros npf_irr investor_equity cash_flows em irr Hlen Hpos.
  destruct cash_flows as [|first rest]; [simpl in Hlen; lia|].
  split.
  - intros H.
    apply calculate_development_returns_inv in H. destruct H as (locals & Hb & Hi & Hr).
    apply equity_block_inv in Hb. destruct Hb as (first' & Hs & Hg & Hp & Hd).
    injection Hg as <-.
    exists (total_distributions locals), (equity_multiple locals), (total_profit locals).
    rewrite <- sum_from_filter. rewrite abs_of_positive in Hd by exact Hpos.
    auto.
  - intros (total & ratio & profit & Hs & Hd & Hr & Hp & Hi).
    rewrite <- sum_from_filter in Hs.
    unfold calculate_development_returns, equity_block, sum.
    rewrite Hs. cbn [bind getitem nth_error]. simpl hd in Hp. rewrite Hp. cbn [bind].
    rewrite abs_of_positive by exact Hpos. rewrite Hd. cbn [bind equity_multiple].
    rewrite Hi. cbn [bind]. rewrite Hr. reflexivity.
Qed.

Lemma equity_multiple_is_rounded_ratio_witness :
  exists total ratio profit,
    spec_total_distributions (PyInt 0) CASH_FLOW_STREAM = Returns total /\
    truediv total (PyInt 400000) = Returns ratio /\
    round2 ratio = Returns (PyFloat float_1_62) /\
    sub total (abs (hd (PyInt 0) CASH_FLOW_STREAM)) = Returns profit /\
    irr_block (irr_raising ValueError) CASH_FLOW_STREAM = Returns irr_failed.
Proof.
  apply (equity_multiple_is_rounded_ratio
           (irr_raising ValueError) (PyInt 400000) CASH_FLOW_STREAM
           (PyFloat float_1_62) irr_failed).
  - simpl. lia.
  - reflexivity.
  - vm_compute. reflexivity.
Defined.

(** ** The IRR block *)

Lemma irr_block_ValueError npf_irr cash_flows :
  npf_irr cash_flows = Raises ValueError ->
  irr_block npf_irr cash_flows = Returns irr_failed.
Proof. unfold irr_block; intros ->; reflexivity. Qed.

Lemma irr_block_uncaught npf_irr cash_flows x :
  npf_irr cash_flows = Raises x -> x <> ValueError ->
  irr_block npf_irr cash_flows = Raises x.
Proof.
  unfold irr_block; intros -> Hx; simpl. destruct x; congruence.
Qed.

Lemma try_except_Raises {A : Type} (body handler : pyresult A) x :
  try_except_ValueError body handler = Raises x ->
  (body = Raises x /\ x <> ValueError) \/
  (body = Raises ValueError /\ handler = Raises x).
Proof.
  destruct body as [a|[]]; simpl; intros H; try discriminate;
    try (right; split; [reflexivity | exact H]);
    injection H as <-; left; split; congruence.
Qed.

Lemma try_except_Returns {A : Type} (body handler : pyresult A) v :
  try_except_ValueError body handler = Returns v ->
  body = Returns v \/ (body = Raises ValueError /\ handler = Returns v).
Proof.
  destruct body as [a|[]]; simpl; intros H; try discriminate; auto.
Qed.

Lemma irr_block_body_Raises (irr : pyfloat) x :
  (scaled <- mul (PyFloat irr) (PyInt 100) ;;
   irr_percentage <- round2 scaled ;;
   Returns (VNum irr_percentage)) = Raises x -> x = OverflowError.
Proof.
  intros H.
  apply bind_Raises_inv in H; destruct H as [H|(v & _ & H)];
    [eapply arith_Raises; exact H|].
  apply bind_Raises_inv in H; destruct H as [H|(w & _ & H)];
    [eapply round2_Raises; exact H | discriminate].
Qed.

Lemma irr_block_Raises npf_irr cash_flows x :
  irr_block npf_irr cash_flows = Raises x ->
  x = OverflowError \/ (npf_irr cash_flows = Raises x /\ x <> ValueError).
Proof.
  unfold irr_block; intros H.
  apply try_except_Raises in H. destruct H as [[H Hx]|[_ H]]; [|discriminate].
  apply bind_Raises_inv in H. destruct H as [H|(irr & _ & H)]; [auto|].
  left. eapply irr_block_body_Raises; exact H.
Qed.

Lemma irr_block_sentinel_iff npf_irr cash_flows irr :
  irr_block npf_irr cash_flows = Returns irr ->
  (irr = irr_failed <-> npf_irr cash_flows = Raises ValueError).
Proof.
  unfold irr_block; intros H.
  apply try_except_Returns in H. destruct H as [H|[H Hh]].
  - bind_inv H. bind_inv H. bind_inv H. injection H as <-.
    split; intros G; [discriminate | congruence].
  - injection Hh as <-.
    apply bind_Raises_inv in H. destruct H as [H|(r & _ & H)]; [tauto|].
    apply irr_block_body_Raises in H. discriminate.
Qed.

Lemma irr_block_nan npf_irr cash_flows :
  npf_irr cash_flows = Returns float_nan ->
  irr_block npf_irr cash_flows = Returns (VNum (PyFloat float_nan)).
Proof. unfold irr_block; intros ->; reflexivity. Qed.

Lemma equity_block_Raises investor_equity cash_flows x :
  equity_block investor_equity cash_flows = Raises x ->
  x = OverflowError \/ x = IndexError \/ x = ZeroDivisionError.
Proof.
  unfold equity_block; intros H.
  apply bind_Raises_inv in H; destruct H as [H|(td & _ & H)];
    [left; eapply sum_from_Raises; exact H|].
  apply bind_Raises_inv in H; destruct H as [H|(first & _ & H)].
  { unfold getitem in H. destruct (nth_error cash_flows 0); [discriminate|].
    injection H as <-. auto. }
  apply bind_Raises_inv in H; destruct H as [H|(tp & _ & H)];
    [left; eapply arith_Raises; exact H|].
  apply bind_Raises_inv in H; destruct H as [H|(q & _ & H)]; [|discriminate].
  apply truediv_Raises in H. tauto.
Qed.

(** Where an exception of the whole function comes from. *)
Lemma calculate_development_returns_Raises npf_irr investor_equity cash_flows x :
  calculate_development_returns npf_irr investor_equity cash_flows = Raises x ->
  equity_block investor_equity cash_flows = Raises x \/
  x = OverflowError \/
  (npf_irr cash_flows = Raises x /\ x <> ValueError).
Proof.
  unfold calculate_development_returns; intros H.
  apply bind_Raises_inv in H; destruct H as [H|(locals & _ & H)]; [auto|].
  apply bind_Raises_inv in H; destruct H as [H|(irr & _ & H)].
  { apply irr_block_Raises in H. tauto. }
  apply bind_Raises_inv in H; destruct H as [H|(r & _ & H)]; [|discriminate].
  apply round2_Raises in H. auto.
Qed.

(** ** C2 *)

(** C2, counterexample.  A solver error of a class other than [ValueError]
    is not caught: with a solver that raises [TypeError] the function raises
    [TypeError] to its caller on the script's own input. *)
Lemma solver_TypeError_reaches_caller :
  calculate_development_returns (irr_raising TypeError) (PyInt 400000) CASH_FLOW_STREAM
  = Raises TypeError.
Proof. vm_compute. reflexivity. Qed.

(** C2, amended.  The function never raises [ValueError].  A [ValueError]
    raised by the solver is caught and replaced by the placeholder string
    inside the returned tuple, next to the equity multiple; an exception of
    any other class raised by the solver propagates to the caller once the
    equity block has returned. *)
Theorem only_ValueError_is_converted :
  forall npf_irr investor_equity cash_flows,
    calculate_development_returns npf_irr investor_equity cash_flows <> Raises ValueError /\
    (npf_irr cash_flows = Raises ValueError ->
     calculate_development_returns npf_irr investor_equity cash_flows
     = (locals <- equity_block investor_equity cash_flows ;;
        rounded <- round2 (equity_multiple locals) ;;
        Returns (rounded, irr_failed))) /\
    (forall x locals,
        npf_irr cash_flows = Raises x -> x <> ValueError ->
        equity_block investor_equity cash_flows = Returns locals ->
        calculate_development_returns npf_irr investor_equity cash_flows = Raises x).
Proof.
  intros npf_irr investor_equity cash_flows. repeat split.
  - intros H. apply calculate_development_returns_Raises in H.
    destruct H as [H|[H|[_ H]]]; try congruence.
    apply equity_block_Raises in H. destruct H as [H|[H|H]]; discriminate.
  - intros Hv. unfold calculate_development_returns.
    rewrite (irr_block_ValueError _ _ Hv). reflexivity.
  - intros x locals Hx Hne Hb. unfold calculate_development_returns.
    rewrite Hb, (irr_block_uncaught _ _ _ Hx Hne). reflexivity.
Qed.

Lemma only_ValueError_is_converted_witness :
  calculate_development_returns (irr_raising ValueError) (PyInt 400000) CASH_FLOW_STREAM
  = Returns (PyFloat float_1_62, irr_failed).
Proof.
  destruct (only_ValueError_is_converted
              (irr_raising ValueError) (PyInt 400000) CASH_FLOW_STREAM) as (_ & H & _).
  rewrite H; [vm_compute; reflexivity | reflexivity].
Defined.

(** ** C3 *)

(** C3, counterexample.  The function has no test of the sign pattern and no
    test for NaN: when the solver reports that it found no rate by returning
    NaN, an all-non-negative and an all-non-positive sequence both come back
    with NaN, not with the placeholder, as IRR component. *)
Lemma one_signed_flows_yield_nan :
  calculate_development_returns (irr_returning float_nan) (PyInt 400000)
    [PyInt 0; PyInt 0; PyInt 650000]
  = Returns (PyFloat float_1_62, VNum (PyFloat float_nan)) /\
  calculate_development_returns (irr_returning float_nan) (PyInt 400000)
    [PyInt (-400000); PyInt 0; PyInt (-650000)]
  = Returns (PyFloat float_zero, VNum (PyFloat float_nan)) /\
  VNum (PyFloat float_nan) <> irr_failed.
Proof.
  split; [vm_compute; reflexivity|].
  split; [vm_compute; reflexivity | discriminate].
Qed.

(** C3, amended.  For every cash-flow sequence, of one sign or not, the IRR
    component of a returned result is the placeholder exactly when the
    solver raised [ValueError] on that sequence; it is never an exception of
    that class; and when the solver returns NaN the IRR component is NaN. *)
Theorem sentinel_exactly_on_solver_ValueError :
  forall npf_irr investor_equity cash_flows,
    (forall em irr,
        calculate_development_returns npf_irr investor_equity cash_flows = Returns (em, irr) ->
        (irr = irr_failed <-> npf_irr cash_flows = Raises ValueError)) /\
    (forall em irr,
        calculate_development_returns npf_irr investor_equity cash_flows = Returns (em, irr) ->
        npf_irr cash_flows = Returns float_nan -> irr = VNum (PyFloat float_nan)) /\
    calculate_development_returns npf_irr investor_equity cash_flows <> Raises ValueError.
Proof.
  intros npf_irr investor_equity cash_flows. repeat split.
  - intros ->. apply calculate_development_returns_inv in H.
    destruct H as (locals & _ & Hi & _).
    apply (irr_block_sentinel_iff _ _ _ Hi). reflexivity.
  - intros Hv. apply calculate_development_returns_inv in H.
    destruct H as (locals & _ & Hi & _).
    rewrite (irr_block_ValueError _ _ Hv) in Hi. congruence.
  - intros em irr H Hn. apply calculate_development_returns_inv in H.
    destruct H as (locals & _ & Hi & _).
    rewrite (irr_block_nan _ _ Hn) in Hi. congruence.
  - intros H. apply calculate_development_returns_Raises in H.
    destruct H as [H|[H|[_ H]]]; try congruence.
    apply equity_block_Raises in H. destruct H as [H|[H|H]]; discriminate.
Qed.

Lemma sentinel_exactly_on_solver_ValueError_witness :
  irr_failed = irr_failed <->
  irr_raising ValueError [PyInt 0; PyInt 0; PyInt 650000] = Raises ValueError.
Proof.
  destruct (sentinel_exactly_on_solver_ValueError
              (irr_raising ValueError) (PyInt 400000)
              [PyInt 0; PyInt 0; PyInt 650000]) as (H & _ & _).
  apply (H (PyFloat float_1_62) irr_failed). vm_compute. reflexivity.
Defined.

(** ** C4 *)

(** C4.  When the solver raises [ValueError], every result the function
    returns carries the placeholder together with the fully computed equity
    multiple [round(total / abs(investor_equity), 2)]; and whatever equity
    multiple the function returns with a solver that succeeds on the same
    arguments, it returns the same one, next to the placeholder, with the
    solver that fails. *)
Theorem equity_multiple_survives_irr_failure :
  forall npf_irr investor_equity cash_flows,
    npf_irr cash_flows = Raises ValueError ->
    (forall em irr,
        calculate_development_returns npf_irr investor_equity cash_flows = Returns (em, irr) ->
        irr = irr_failed /\
        exists total ratio,
          sum (filter gt0 cash_flows) = Returns total /\
          truediv total (abs investor_equity) = Returns ratio /\
          round2 ratio = Returns em) /\
    (forall other em irr,
        calculate_development_returns other investor_equity cash_flows = Returns (em, irr) ->
        calculate_development_returns npf_irr investor_equity cash_flows
        = Returns (em, irr_failed)).
Proof.
  intros npf_irr investor_equity cash_flows Hv. split.
  - intros em irr H. apply calculate_development_returns_inv in H.
    destruct H as (locals & Hb & Hi & Hr).
    rewrite (irr_block_ValueError _ _ Hv) in Hi. injection Hi as <-.
    split; [reflexivity|].
    apply equity_block_inv in Hb. destruct Hb as (first & Hs & _ & _ & Hd).
    eauto.
  - intros other em irr H. apply calculate_development_returns_inv in H.
    destruct H as (locals & Hb & _ & Hr).
    unfold calculate_development_returns.
    rewrite Hb, (irr_block_ValueError _ _ Hv). simpl. rewrite Hr. reflexivity.
Qed.

Lemma equity_multiple_survives_irr_failure_witness :
  calculate_development_returns (irr_raising ValueError) (PyInt 400000) CASH_FLOW_STREAM
  = Returns (PyFloat float_1_62, irr_failed).
Proof.
  destruct (equity_multiple_survives_irr_failure
              (irr_raising ValueError) (PyInt 400000) CASH_FLOW_STREAM eq_refl)
    as (_ & H).
  apply (H (irr_returning (decimal 2747548783981961 16))
           (PyFloat float_1_62) (VNum (PyFloat float_27_48))).
  vm_compute. reflexivity.
Defined.

(** ** C6 *)

(** C6, counterexample.  With equity 100 and cash flows [[-100, 0, 0]] the
    equity multiple is 0.0, but the IRR component is whatever the solver
    produces: NaN when the solver returns NaN for the rate it cannot find. *)
Lemma zero_distribution_yields_nan :
  calculate_development_returns (irr_returning float_nan) (PyInt 100)
    [PyInt (-100); PyInt 0; PyInt 0]
  = Returns (PyFloat float_zero, VNum (PyFloat float_nan)) /\
  VNum (PyFloat float_nan) <> irr_failed.
Proof.
  split; [vm_compute; reflexivity | discriminate].
Qed.

(** C6, amended.  For equity 100 and cash flows [[-100, 0, 0]] the function
    never raises out of the equity block, every result it returns has equity
    multiple exactly 0.0, and the IRR component of a returned result is the
    placeholder exactly when the solver raised [ValueError] on this input; in
    that case the function returns [(0.0, placeholder)]. *)
Theorem zero_distribution_scenario :
  forall npf_irr,
    let cash_flows := [PyInt (-100); PyInt 0; PyInt 0] in
    (npf_irr cash_flows = Raises ValueError ->
     calculate_development_returns npf_irr (PyInt 100) cash_flows
     = Returns (PyFloat float_zero, irr_failed)) /\
    (forall em irr,
        calculate_development_returns npf_irr (PyInt 100) cash_flows = Returns (em, irr) ->
        em = PyFloat float_zero /\
        (irr = irr_failed <-> npf_irr cash_flows = Raises ValueError)).
Proof.
  intros npf_irr cash_flows. split.
  - intros Hv. unfold calculate_development_returns.
    rewrite (irr_block_ValueError _ _ Hv). vm_compute. reflexivity.
  - intros em irr H. apply calculate_development_returns_inv in H.
    destruct H as (locals & Hb & Hi & Hr).
    split; [|exact (irr_block_sentinel_iff _ _ _ Hi)].
    vm_compute in Hb. injection Hb as <-.
    vm_compute in Hr. injection Hr as <-. reflexivity.
Qed.

Lemma zero_distribution_scenario_witness :
  calculate_development_returns (irr_raising ValueError) (PyInt 100)
    [PyInt (-100); PyInt 0; PyInt 0]
  = Returns (PyFloat float_zero, irr_failed).
Proof.
  apply (zero_distribution_scenario (irr_raising ValueError)). reflexivity.
Defined.

(** ** Signs *)

Lemma binary_round_aux_sign_clear (m e : Z) (l : location) :
  sign_clear (binary_round_aux prec emax false m e l).
Proof.
  unfold binary_round_aux.
  destruct (shr_fexp prec emax m e l) as [r1 e1].
  destruct (shr_fexp prec emax _ e1 loc_Exact) as [r2 e2].
  destruct (shr_m r2); [reflexivity | | exact I].
  destruct (_ <=? _); reflexivity.
Qed.

Lemma binary_normalize_sign_clear (z e : Z) :
  0 <= z -> sign_clear (binary_normalize prec emax z e false).
Proof.
  destruct z as [|p|p]; intros Hz; simpl; [reflexivity| |lia].
  unfold binary_round. destruct (shl_align _ _ _) as [mz ez].
  apply binary_round_aux_sign_clear.
Qed.

Lemma fadd_sign_clear (a b : pyfloat) :
  sign_clear a -> sign_clear b -> sign_clear (fadd a b).
Proof.
  destruct a as [sa|sa| |sa ma ea], b as [sb|sb| |sb mb eb]; simpl;
    intros Ha Hb; subst; try exact I; try reflexivity.
  apply binary_normalize_sign_clear. simpl. lia.
Qed.

Lemma fdiv_sign_clear (a b : pyfloat) :
  sign_clear a -> sign_clear b -> sign_clear (fdiv a b).
Proof.
  destruct a as [sa|sa| |sa ma ea], b as [sb|sb| |sb mb eb]; simpl;
    intros Ha Hb; subst; try exact I; try reflexivity.
  destruct (SFdiv_core_binary prec emax (Zpos ma) ea (Zpos mb) eb) as [[mz ez] lz].
  apply binary_round_aux_sign_clear.
Qed.

Lemma finite_or_overflow_Returns (f r : pyfloat) :
  finite_or_overflow f = Returns r -> r = f.
Proof.
  unfold finite_or_overflow; destruct (is_infinity f); congruence.
Qed.

Lemma fround2_sign_clear (f r : pyfloat) :
  sign_clear f -> fround2 f = Returns r -> sign_clear r.
Proof.
  destruct f as [s|s| |s m e]; intros Hf H; unfold fround2 in H; cbv beta iota in H;
    try (injection H as <-; exact Hf).
  simpl in Hf. subst s. destruct (hundredths m e).
  - injection H as <-. reflexivity.
  - apply finite_or_overflow_Returns in H. subst r.
    apply fdiv_sign_clear; reflexivity.
  - injection H as <-. reflexivity.
Qed.

Lemma to_float_sign_clear (x : pynum) (f : pyfloat) :
  nonneg x -> to_float x = Returns f -> sign_clear f.
Proof.
  destruct x as [z|g]; simpl; intros Hx H.
  - apply finite_or_overflow_Returns in H. subst f.
    apply binary_normalize_sign_clear; exact Hx.
  - congruence.
Qed.

Lemma gt0_nonneg (x : pynum) : gt0 x = true -> nonneg x.
Proof.
  destruct x as [z|f]; intros H.
  - simpl in *. apply Z.ltb_lt in H. lia.
  - apply gt0_float_shape in H. destruct H as [->|(m & e & ->)]; reflexivity.
Qed.

Lemma abs_nonneg (x : pynum) : nonneg (abs x).
Proof.
  destruct x as [z|f]; simpl; [lia | destruct f; simpl; auto].
Qed.

Lemma add_nonneg (a b c : pynum) :
  nonneg a -> nonneg b -> add a b = Returns c -> nonneg c.
Proof.
  intros Ha Hb H. unfold add, arith in H.
  destruct a as [za|fa], b as [zb|fb];
    try (injection H as <-; simpl in *; lia);
    bind_inv H; bind_inv H; injection H as <-;
    (apply fadd_sign_clear;
     [eapply to_float_sign_clear; [|exact Hv] | eapply to_float_sign_clear; [|exact Hv0]];
     assumption).
Qed.

Lemma sum_from_nonneg (items : list pynum) :
  forall acc total,
    nonneg acc -> Forall nonneg items ->
    sum_from acc items = Returns total -> nonneg total.
Proof.
  induction items as [|c rest IH]; simpl; intros acc total Ha Hi H.
  - congruence.
  - bind_inv H. inversion Hi; subst.
    apply (IH v total); [apply (add_nonneg acc c v); assumption | assumption | exact H].
Qed.

Lemma int_quotient_sign_clear (a b : Z) :
  0 <= a -> 0 <= b -> sign_clear (int_quotient a b).
Proof.
  intros Ha Hb. unfold int_quotient.
  replace (a <? 0) with false by (symmetry; apply Z.ltb_ge; lia).
  replace (b <? 0) with false by (symmetry; apply Z.ltb_ge; lia).
  destruct (Z.abs a); try reflexivity.
  destruct (Z.abs b); try reflexivity.
  apply fdiv_sign_clear; reflexivity.
Qed.

Lemma truediv_nonneg (a b q : pynum) :
  nonneg a -> nonneg b -> truediv a b = Returns q -> nonneg q.
Proof.
  intros Ha Hb H. unfold truediv in H.
  destruct a as [za|fa], b as [zb|fb].
  1:{ destruct (zb =? 0); [discriminate|]. bind_inv H.
      apply finite_or_overflow_Returns in Hv. injection H as <-. subst v.
      apply int_quotient_sign_clear; assumption. }
  all: bind_inv H; bind_inv H; destruct (is_zero v0); [discriminate|];
    injection H as <-;
    (apply fdiv_sign_clear;
     [eapply to_float_sign_clear; [|exact Hv] | eapply to_float_sign_clear; [|exact Hv0]];
     assumption).
Qed.

Lemma round2_nonneg (q em : pynum) :
  nonneg q -> round2 q = Returns em -> nonneg em.
Proof.
  destruct q as [z|f]; simpl; intros Hq H.
  - injection H as <-. exact Hq.
  - bind_inv H. injection H as <-. eapply fround2_sign_clear; eauto.
Qed.

Lemma nonneg_not_lt0 (x : pynum) : nonneg x -> lt0 x = false.
Proof.
  destruct x as [z|f]; simpl; intros H.
  - apply Z.ltb_ge. lia.
  - destruct f; simpl in H; subst; reflexivity.
Qed.

Lemma equity_multiple_nonneg investor_equity cash_flows locals em :
  equity_block investor_equity cash_flows = Returns locals ->
  round2 (equity_multiple locals) = Returns em ->
  nonneg em.
Proof.
  intros Hb Hr.
  apply equity_block_inv in Hb. destruct Hb as (first & Hs & _ & _ & Hd).
  eapply round2_nonneg; [|exact Hr].
  eapply truediv_nonneg; [| |exact Hd]; [|apply abs_nonneg].
  eapply sum_from_nonneg; [| |exact Hs]; [simpl; lia|].
  apply Forall_forall. intros x Hx. apply filter_In in Hx.
  apply gt0_nonneg. tauto.
Qed.

(** ** C9 *)

(** C9.  The function applied to [-investor_equity] is the function applied
    to [investor_equity], results and exceptions alike, because only
    [abs(investor_equity)] is used; the equity multiple it returns is never
    negative ([em < 0] is false); and the IRR component does not depend on
    the equity argument at all. *)
Theorem equity_sign_is_irrelevant :
  forall npf_irr investor_equity cash_flows,
    calculate_development_returns npf_irr (neg investor_equity) cash_flows
    = calculate_development_returns npf_irr investor_equity cash_flows /\
    (forall em irr,
        calculate_development_returns npf_irr investor_equity cash_flows = Returns (em, irr) ->
        lt0 em = false) /\
    (forall other_equity em irr em' irr',
        calculate_development_returns npf_irr investor_equity cash_flows = Returns (em, irr) ->
        calculate_development_returns npf_irr other_equity cash_flows = Returns (em', irr') ->
        irr = irr').
Proof.
  intros npf_irr investor_equity cash_flows. repeat split.
  - unfold calculate_development_returns, equity_block.
    rewrite abs_neg. reflexivity.
  - intros em irr H. apply calculate_development_returns_inv in H.
    destruct H as (locals & Hb & _ & Hr).
    apply nonneg_not_lt0. eapply equity_multiple_nonneg; eauto.
  - intros other_equity em irr em' irr' H H'.
    apply calculate_development_returns_inv in H, H'.
    destruct H as (_ & _ & Hi & _), H' as (_ & _ & Hi' & _). congruence.
Qed.

Lemma equity_sign_is_irrelevant_witness :
  lt0 (PyFloat float_1_62) = false.
Proof.
  destruct (equity_sign_is_irrelevant
              (irr_raising ValueError) (PyInt (-400000)) CASH_FLOW_STREAM) as (_ & H & _).
  apply (H (PyFloat float_1_62) irr_failed). vm_compute. reflexivity.
Defined.

(** ** C8 *)

(** The function run in a world, whatever the solver does there: the result
    is the one of the function of the embedding on the items found at the
    call, with the solver's answer in that world; the world handed back is
    the one the solver left, or the one found when the solver is not
    reached. *)
Lemma calculate_development_returns_in_run (npf_irr : action pyfloat)
      investor_equity (w : world) :
  calculate_development_returns_in npf_irr investor_equity w
  = (calculate_development_returns (fun _ => fst (npf_irr w)) investor_equity
       (cash_flows_object w),
     match equity_block investor_equity (cash_flows_object w) with
     | Returns _ => snd (npf_irr w)
     | Raises _ => w
     end).
Proof.
  unfold calculate_development_returns_in, calculate_development_returns,
    equity_block, irr_block, act_bind, act_lift, act_ret, read_items,
    act_try_except_ValueError.
  destruct (sum (filter gt0 (cash_flows_object w))) as [td|x]; cbn [bind]; [|reflexivity].
  destruct (getitem (cash_flows_object w) 0) as [first|x]; cbn [bind]; [|reflexivity].
  destruct (sub td (abs first)) as [tp|x]; cbn [bind]; [|reflexivity].
  destruct (truediv td (abs investor_equity)) as [q|x]; cbn [bind]; [|reflexivity].
  cbn [equity_multiple].
  destruct (npf_irr w) as [[irr|x] w']; cbn [fst snd bind].
  - destruct (mul (PyFloat irr) (PyInt 100)) as [scaled|x]; cbn [bind].
    + destruct (round2 scaled) as [p|x]; cbn [bind try_except_ValueError].
      * destruct (round2 q); reflexivity.
      * destruct x; try reflexivity; destruct (round2 q); reflexivity.
    + destruct x; cbn [try_except_ValueError bind]; try reflexivity;
        destruct (round2 q); reflexivity.
  - destruct x; cbn [try_except_ValueError bind]; try reflexivity;
      destruct (round2 q); reflexivity.
Qed.

Lemma only_reading_leaves_world npf_irr : leaves_world (only_reading npf_irr).
Proof. intros w. reflexivity. Qed.

Lemma only_reading_reads_items_only npf_irr : reads_items_only (only_reading npf_irr).
Proof.
  intros w1 w2 H. unfold only_reading, act_bind, read_items, act_lift.
  cbn [fst]. rewrite H. reflexivity.
Qed.

(** With a solver that computes from the items only, the run is the function
    of the embedding applied to the items, in a world left as it was. *)
Lemma calculate_development_returns_in_spec npf_irr investor_equity (w : world) :
  calculate_development_returns_in (only_reading npf_irr) investor_equity w
  = (calculate_development_returns npf_irr investor_equity (cash_flows_object w), w).
Proof.
  rewrite calculate_development_returns_in_run.
  rewrite only_reading_leaves_world.
  destruct (equity_block investor_equity (cash_flows_object w)) eqn:Hb; reflexivity.
Qed.

(** C8.  The function's own statements read the list object and do nothing
    else.  Whatever the solver does with the list it is handed, the call
    gives the result of the function of the embedding on the items found at
    the call, and hands back the world the solver left, or the world it
    found when an exception comes before the solver is reached: every change
    to the list or to the console is the solver's.  Hence, with a solver
    that leaves the world as it finds it and whose outcome is decided by the
    items, two calls with equal equity on worlds whose lists hold equal
    items give equal results (return value or exception), whatever else
    differs between the worlds, and each leaves its world, the list object
    and the console included, exactly as it found it. *)
Theorem result_depends_only_on_arguments :
  forall npf_irr : action pyfloat,
    (forall equity (w : world),
        fst (calculate_development_returns_in npf_irr equity w)
        = calculate_development_returns (fun _ => fst (npf_irr w)) equity
            (cash_flows_object w) /\
        snd (calculate_development_returns_in npf_irr equity w)
        = match equity_block equity (cash_flows_object w) with
          | Returns _ => snd (npf_irr w)
          | Raises _ => w
          end) /\
    (leaves_world npf_irr -> reads_items_only npf_irr ->
     forall equity1 equity2 (w1 w2 : world),
       equity1 = equity2 ->
       cash_flows_object w1 = cash_flows_object w2 ->
       fst (calculate_development_returns_in npf_irr equity1 w1)
       = fst (calculate_development_returns_in npf_irr equity2 w2) /\
       snd (calculate_development_returns_in npf_irr equity1 w1) = w1 /\
       snd (calculate_development_returns_in npf_irr equity2 w2) = w2).
Proof.
  intros npf_irr. split.
  - intros equity w. rewrite calculate_development_returns_in_run. split; reflexivity.
  - intros Hleaves Hreads equity1 equity2 w1 w2 He Hc.
    rewrite !calculate_development_returns_in_run. cbn [fst snd].
    rewrite !Hleaves. subst equity2. rewrite Hc, (Hreads w1 w2 Hc).
    repeat split; destruct (equity_block _ _); reflexivity.
Qed.

Lemma result_depends_only_on_arguments_witness :
  let w1 := {| cash_flows_object := CASH_FLOW_STREAM; stdout := [] |} in
  let w2 := {| cash_flows_object := CASH_FLOW_STREAM;
               stdout := ["--- Real Estate Investment Pro Forma ---"%string] |} in
  let npf_irr := only_reading (irr_returning float_nan) in
  fst (calculate_development_returns_in npf_irr (PyInt 400000) w1)
  = fst (calculate_development_returns_in npf_irr (PyInt 400000) w2) /\
  snd (calculate_development_returns_in npf_irr (PyInt 400000) w1) = w1 /\
  snd (calculate_development_returns_in npf_irr (PyInt 400000) w2) = w2.
Proof.
  intros w1 w2 npf_irr.
  destruct (result_depends_only_on_arguments npf_irr) as [_ H].
  apply (H (fun w => eq_refl)
           (fun u1 u2 (E : cash_flows_object u1 = cash_flows_object u2) =>
              f_equal (irr_returning float_nan) E)
           (PyInt 400000) (PyInt 400000) w1 w2);
    reflexivity.
Defined.

(** ** Integer cash flows *)

Lemma filter_gt0_ints (flows : list Z) :
  filter gt0 (map PyInt flows) = map PyInt (positive_entries flows).
Proof.
  induction flows as [|z rest IH]; simpl; [reflexivity|].
  destruct (0 <? z); simpl; rewrite IH; reflexivity.
Qed.

Lemma sum_from_ints (flows : list Z) :
  forall a, sum_from (PyInt a) (map PyInt flows) = Returns (PyInt (a + list_total flows)).
Proof.
  induction flows as [|z rest IH]; intros a; simpl.
  - do 2 f_equal. lia.
  - rewrite IH. do 2 f_equal. lia.
Qed.

Lemma list_total_Permutation (l l' : list Z) :
  Permutation l l' -> list_total l = list_total l'.
Proof.
  induction 1; simpl; lia.
Qed.

Lemma positive_entries_Permutation (l l' : list Z) :
  Permutation l l' -> Permutation (positive_entries l) (positive_entries l').
Proof.
  unfold positive_entries.
  induction 1 as [|x l l' _ IH|x y l|l l' l'' _ IH1 _ IH2]; simpl.
  - constructor.
  - destruct (0 <? x); [constructor|]; exact IH.
  - destruct (0 <? x), (0 <? y); try apply Permutation_refl. constructor.
  - eapply perm_trans; eassumption.
Qed.

Lemma total_distributions_ints investor_equity (flows : list Z) locals :
  equity_block investor_equity (map PyInt flows) = Returns locals ->
  total_distributions locals = PyInt (list_total (positive_entries flows)).
Proof.
  intros H. apply equity_block_inv in H. destruct H as (first & Hs & _).
  unfold sum in Hs. rewrite filter_gt0_ints, sum_from_ints in Hs.
  injection Hs as <-. reflexivity.
Qed.

Lemma equity_block_ints investor_equity (flows : list Z) :
  flows <> [] ->
  equity_block investor_equity (map PyInt flows)
  = (ratio <- truediv (PyInt (list_total (positive_entries flows))) (abs investor_equity) ;;
     Returns {| total_distributions := PyInt (list_total (positive_entries flows));
                total_profit := PyInt (list_total (positive_entries flows)
                                       - Z.abs (hd 0 flows));
                equity_multiple := ratio |}).
Proof.
  intros Hne. unfold equity_block, sum.
  rewrite filter_gt0_ints, sum_from_ints. cbn [bind].
  destruct flows as [|z rest]; [congruence|]. reflexivity.
Qed.

Lemma list_total_positive_entries_nonneg (flows : list Z) :
  0 <= list_total (positive_entries flows).
Proof.
  induction flows as [|z rest IH]; simpl; [lia|].
  destruct (0 <? z) eqn:E; simpl; [apply Z.ltb_lt in E; lia | exact IH].
Qed.

Lemma equity_block_small_ints (equity : Z) (flows : list Z) :
  0 < equity -> flows <> [] ->
  list_total (positive_entries flows) < 2 ^ 1023 ->
  exists locals, equity_block (PyInt equity) (map PyInt flows) = Returns locals.
Proof.
  intros He Hne Hlt. rewrite equity_block_ints by exact Hne.
  pose proof (list_total_positive_entries_nonneg flows) as H0.
  cbn [abs truediv].
  replace (Z.abs equity =? 0) with false by (symmetry; apply Z.eqb_neq; lia).
  unfold finite_or_overflow.
  rewrite int_quotient_finite by lia. cbn [bind]. eauto.
Qed.

(** ** C7 *)

Lemma abs_positive_not_zero (investor_equity : pynum) (f : pyfloat) :
  gt0 investor_equity = true ->
  to_float (abs investor_equity) = Returns f -> is_zero f = false.
Proof.
  intros Hpos H. rewrite abs_of_positive in H by exact Hpos.
  destruct investor_equity as [z|g].
  - simpl in Hpos. apply Z.ltb_lt in Hpos.
    apply (int_to_float_not_zero z); [lia | exact H].
  - simpl in H. injection H as <-.
    apply gt0_float_shape in Hpos. destruct Hpos as [->|(m & e & ->)]; reflexivity.
Qed.

Lemma truediv_by_positive_Raises (total investor_equity : pynum) x :
  gt0 investor_equity = true ->
  truediv total (abs investor_equity) = Raises x -> x = OverflowError.
Proof.
  intros Hpos H.
  assert (G : forall fa : pyresult pyfloat,
             (forall y, fa = Raises y -> y = OverflowError) ->
             (a' <- fa ;; b' <- to_float (abs investor_equity) ;;
              if is_zero b' then Raises ZeroDivisionError
              else Returns (PyFloat (fdiv a' b'))) = Raises x ->
             x = OverflowError).
  { intros fa Ha G.
    apply bind_Raises_inv in G; destruct G as [G|(v & _ & G)]; [eauto|].
    apply bind_Raises_inv in G; destruct G as [G|(w & Hw & G)];
      [eapply to_float_Raises; exact G|].
    rewrite (abs_positive_not_zero _ _ Hpos Hw) in G. discriminate. }
  unfold truediv in H.
  destruct total as [zt|ft], (abs investor_equity) as [ze|fe] eqn:E.
  - destruct (ze =? 0) eqn:Z0.
    + apply Z.eqb_eq in Z0. subst ze.
      rewrite abs_of_positive in E by exact Hpos. subst investor_equity. discriminate.
    + apply bind_Raises_inv in H; destruct H as [H|(v & _ & H)]; [|discriminate].
      eapply finite_or_overflow_Raises; exact H.
  - apply G in H; [exact H | intros y; apply to_float_Raises].
  - apply G in H; [exact H | intros y; apply to_float_Raises].
  - apply G in H; [exact H | intros y; apply to_float_Raises].
Qed.

Lemma equity_block_preconditions_Raises investor_equity cash_flows x :
  (2 <= List.length cash_flows)%nat ->
  gt0 investor_equity = true ->
  equity_block investor_equity cash_flows = Raises x -> x = OverflowError.
Proof.
  intros Hlen Hpos H. unfold equity_block in H.
  apply bind_Raises_inv in H; destruct H as [H|(td & _ & H)];
    [eapply sum_from_Raises; exact H|].
  apply bind_Raises_inv in H; destruct H as [H|(first & _ & H)].
  { destruct cash_flows; [simpl in Hlen; lia | discriminate]. }
  apply bind_Raises_inv in H; destruct H as [H|(tp & _ & H)];
    [eapply arith_Raises; exact H|].
  apply bind_Raises_inv in H; destruct H as [H|(q & _ & H)]; [|discriminate].
  eapply truediv_by_positive_Raises; eauto.
Qed.

Lemma sum_from_floats (items : list pynum) :
  forall acc,
    zero_or_float acc -> Forall is_float items ->
    exists total, sum_from acc items = Returns total /\ zero_or_float total.
Proof.
  induction items as [|c rest IH]; simpl; intros acc Ha Hi; [eauto|].
  inversion Hi as [|c' rest' Hc Hrest]; subst.
  destruct c as [z|f]; [contradiction|].
  destruct Ha as [->|Ha].
  - apply IH; [right; exact I | exact Hrest].
  - destruct acc as [z|g]; [contradiction|].
    apply IH; [right; exact I | exact Hrest].
Qed.

Lemma equity_block_floats investor_equity cash_flows :
  (2 <= List.length cash_flows)%nat ->
  gt0 investor_equity = true ->
  is_float investor_equity -> Forall is_float cash_flows ->
  exists locals, equity_block investor_equity cash_flows = Returns locals.
Proof.
  intros Hlen Hpos He Hc. unfold equity_block.
  destruct (sum_from_floats (filter gt0 cash_flows) (PyInt 0)) as (td & Hs & Htd).
  { left; reflexivity. }
  { apply Forall_forall. intros x Hx. apply filter_In in Hx.
    rewrite Forall_forall in Hc. apply Hc. tauto. }
  unfold sum. rewrite Hs. cbn [bind].
  destruct cash_flows as [|first rest]; [simpl in Hlen; lia|].
  cbn [getitem nth_error bind].
  inversion Hc as [|c' rest' Hfirst _]; subst.
  destruct first as [z|f]; [contradiction|].
  destruct investor_equity as [z|e]; [contradiction|].
  pose proof (abs_positive_not_zero (PyFloat e) (SFabs e) Hpos eq_refl) as Hz.
  assert (H0 : int_to_float 0 = Returns float_zero) by reflexivity.
  destruct Htd as [->|Htd].
  - cbn [sub arith truediv to_float abs bind]. rewrite H0. cbn [bind].
    rewrite Hz. cbn [bind]. eauto.
  - destruct td as [z|t]; [contradiction|].
    cbn [sub arith truediv to_float abs bind]. rewrite Hz. cbn [bind]. eauto.
Qed.

(** C7, counterexample.  The preconditions hold (equity 1 > 0, two cash
    flows), yet the division of the equity-multiple block raises
    [OverflowError]: the quotient of the ints [2**1024] and [1] is too large
    for a float. *)
Lemma huge_int_overflows_equity_block :
  gt0 (PyInt 1) = true /\
  List.length [PyInt (-1); PyInt (2 ^ 1024)] = 2%nat /\
  equity_block (PyInt 1) [PyInt (-1); PyInt (2 ^ 1024)] = Raises OverflowError /\
  calculate_development_returns (irr_raising ValueError) (PyInt 1)
    [PyInt (-1); PyInt (2 ^ 1024)] = Raises OverflowError.
Proof.
  repeat split; vm_compute; reflexivity.
Qed.

(** C7, amended.  Under the preconditions (at least two cash flows, equity
    [> 0]) the equity-multiple block raises neither [IndexError] nor
    [ZeroDivisionError]: the only exception it can raise is [OverflowError],
    which needs an int too large for a float.  It returns when the equity
    and the cash flows are floats, and when they are ints whose positive
    entries add up to less than [2^1023].  Any exception of the whole
    function is then an [OverflowError] or the solver's own uncaught
    exception from inside the try block. *)
Theorem equity_block_fails_only_by_overflow :
  forall npf_irr investor_equity cash_flows,
    (2 <= List.length cash_flows)%nat ->
    gt0 investor_equity = true ->
    (forall x, equity_block investor_equity cash_flows = Raises x -> x = OverflowError) /\
    (is_float investor_equity -> Forall is_float cash_flows ->
     exists locals, equity_block investor_equity cash_flows = Returns locals) /\
    (forall equity flows,
        investor_equity = PyInt equity -> cash_flows = map PyInt flows ->
        list_total (positive_entries flows) < 2 ^ 1023 ->
        exists locals, equity_block investor_equity cash_flows = Returns locals) /\
    (forall x,
        calculate_development_returns npf_irr investor_equity cash_flows = Raises x ->
        x = OverflowError \/ (npf_irr cash_flows = Raises x /\ x <> ValueError)).
Proof.
  intros npf_irr investor_equity cash_flows Hlen Hpos. repeat split.
  - intros x. apply equity_block_preconditions_Raises; assumption.
  - apply equity_block_floats; assumption.
  - intros equity flows -> -> Hlt. apply equity_block_small_ints.
    + simpl in Hpos. apply Z.ltb_lt in Hpos. exact Hpos.
    + intros ->. simpl in Hlen. lia.
    + exact Hlt.
  - intros x H. apply calculate_development_returns_Raises in H.
    destruct H as [H|[H|H]]; auto.
    left. eapply equity_block_preconditions_Raises; eauto.
Qed.

Lemma equity_block_fails_only_by_overflow_witness :
  exists locals,
    equity_block (PyFloat (decimal 4000000 1))
      [PyFloat (decimal (-4000000) 1); PyFloat (decimal 65000005 2)] = Returns locals.
Proof.
  destruct (equity_block_fails_only_by_overflow
              (irr_raising ValueError) (PyFloat (decimal 4000000 1))
              [PyFloat (decimal (-4000000) 1); PyFloat (decimal 65000005 2)])
    as (_ & H & _ & _).
  - simpl. lia.
  - reflexivity.
  - apply H; [exact I | repeat constructor].
Defined.

(** ** C10 *)

(** C10, counterexample.  Float addition rounds, so the left-to-right sum of
    the positive entries depends on their order: the same entries, with the
    outlay first in both orders, give the equity multiples
    9007199254740992.0 and 9007199254740994.0. *)
Lemma float_sum_depends_on_order :
  let one := PyFloat (decimal 1 0) in
  let flows := [PyInt (-1); PyInt (2 ^ 53); one; one] in
  let flows' := [PyInt (-1); one; one; PyInt (2 ^ 53)] in
  Permutation flows flows' /\
  calculate_development_returns (irr_raising ValueError) (PyInt 1) flows
  = Returns (PyFloat (S754_finite false (2 ^ 52) 1), irr_failed) /\
  calculate_development_returns (irr_raising ValueError) (PyInt 1) flows'
  = Returns (PyFloat (S754_finite false (2 ^ 52 + 1) 1), irr_failed).
Proof.
  intros one flows flows'. split.
  - unfold flows, flows'. constructor.
    eapply perm_trans; [apply perm_swap|]. constructor. apply perm_swap.
  - split; vm_compute; reflexivity.
Qed.

(** C10, amended.  For cash flows that are all ints the equity multiple
    depends only on the multiset of strictly positive entries and on the
    equity: two sequences with the same positive entries in any order, and
    in particular two permutations of one sequence, give the same equity
    multiple whenever the function returns for both; and the
    equity-multiple block returns for a permutation whenever it returns for
    the sequence, with the same total distributions and ratio.  (With float
    entries the order of summation can change the result.) *)
Theorem int_equity_multiple_ignores_order :
  forall npf_irr investor_equity (flows flows' : list Z),
    (Permutation (positive_entries flows) (positive_entries flows') ->
     forall em irr em' irr',
       calculate_development_returns npf_irr investor_equity (map PyInt flows)
       = Returns (em, irr) ->
       calculate_development_returns npf_irr investor_equity (map PyInt flows')
       = Returns (em', irr') ->
       em = em') /\
    (Permutation flows flows' ->
     Permutation (positive_entries flows) (positive_entries flows') /\
     forall locals,
       equity_block investor_equity (map PyInt flows) = Returns locals ->
       exists locals',
         equity_block investor_equity (map PyInt flows') = Returns locals' /\
         total_distributions locals' = total_distributions locals /\
         equity_multiple locals' = equity_multiple locals).
Proof.
  intros npf_irr investor_equity flows flows'. split.
  - intros Hp em irr em' irr' H H'.
    apply calculate_development_returns_inv in H, H'.
    destruct H as (locals & Hb & _ & Hr), H' as (locals' & Hb' & _ & Hr').
    pose proof (total_distributions_ints _ _ _ Hb) as Ht.
    pose proof (total_distributions_ints _ _ _ Hb') as Ht'.
    apply equity_block_inv in Hb, Hb'.
    destruct Hb as (_ & _ & _ & _ & Hd), Hb' as (_ & _ & _ & _ & Hd').
    rewrite Ht in Hd. rewrite Ht' in Hd'.
    rewrite (list_total_Permutation _ _ Hp) in Hd. congruence.
  - intros Hp. split; [apply positive_entries_Permutation; exact Hp|].
    intros locals Hb.
    assert (Hne : flows <> []).
    { intros ->. discriminate. }
    assert (Hne' : flows' <> []).
    { intros ->. apply Permutation_sym, Permutation_nil in Hp. contradiction. }
    rewrite equity_block_ints in Hb by exact Hne.
    rewrite equity_block_ints by exact Hne'.
    rewrite <- (list_total_Permutation _ _ (positive_entries_Permutation _ _ Hp)).
    bind_inv Hb. rewrite Hv. cbn [bind]. injection Hb as <-.
    eexists. split; [reflexivity|]. split; reflexivity.
Qed.

Lemma int_equity_multiple_ignores_order_witness :
  PyFloat float_1_62 = PyFloat float_1_62.
Proof.
  destruct (int_equity_multiple_ignores_order
              (irr_raising ValueError) (PyInt 400000)
              [-400000; 0; 650000] [650000; -400000; 0]) as (H & _).
  apply (H ltac:(vm_compute; apply Permutation_refl)
           (PyFloat float_1_62) irr_failed (PyFloat float_1_62) irr_failed);
    vm_compute; reflexivity.
Defined.

(** ** Rounding brackets *)

Lemma round_half_even_bracket (n d k : Z) :
  0 < d -> Z.even k = true ->
  (2 * k - 1) * d <= 2 * n <= (2 * k + 1) * d ->
  round_half_even n d = k.
Proof.
  intros Hd Hk [Hlo Hhi]. unfold round_half_even.
  pose proof (Z.div_mod n d ltac:(lia)) as Hn.
  pose proof (Z.mod_pos_bound n d Hd) as Hr.
  set (q := n / d) in *. set (r := n mod d) in *.
  assert (Hq : k - 1 <= q <= k) by nia.
  destruct (Z.compare_spec (2 * r) d) as [He|Hl|Hg].
  - assert (q = k \/ q = k - 1) as [->| ->] by lia.
    + rewrite Hk. reflexivity.
    + replace (k - 1) with (Z.pred k) by lia.
      rewrite Z.even_pred, <- Z.negb_even, Hk. simpl. lia.
  - nia.
  - nia.
Qed.

(** Rounding a mantissa of [d >= 53] digits whose result stays in the normal
    range and in its binade: the rounded mantissa is the truncated one or
    its successor. *)
Lemma binary_round_aux_normal (s : bool) (m e d : Z) :
  2 ^ (d - 1) <= m < 2 ^ d -> 53 <= d ->
  -1074 <= e + (d - 53) <= 971 ->
  m / 2 ^ (d - 53) + 1 < 2 ^ 53 ->
  exists M : positive,
    binary_round_aux prec emax s m e loc_Exact = S754_finite s M (e + (d - 53)) /\
    m / 2 ^ (d - 53) <= Zpos M <= m / 2 ^ (d - 53) + 1.
Proof.
  intros [Hlo Hhi] Hd He Hq.
  assert (Hm : 0 < m).
  { apply Z.lt_le_trans with (2 ^ (d - 1)); [apply Z.pow_pos_nonneg; lia | exact Hlo]. }
  assert (Hq52 : 2 ^ 52 <= m / 2 ^ (d - 53)).
  { apply Z.div_le_lower_bound; [apply Z.pow_pos_nonneg; lia|].
    rewrite <- Z.pow_add_r by lia. replace (d - 53 + 52) with (d - 1) by lia. exact Hlo. }
  unfold binary_round_aux.
  destruct (shr_fexp_spec m e loc_Exact ltac:(lia)) as [H1 H1e].
  rewrite (Zdigits2_unique m d (conj Hlo Hhi) Hm) in H1, H1e.
  rewrite fexp_binary64 in H1, H1e.
  replace (Z.max (d + e - 53) (-1074) - e) with (d - 53) in H1, H1e by lia.
  assert (H1' : shr_m (fst (shr_fexp prec emax m e loc_Exact)) = m / 2 ^ (d - 53)).
  { rewrite H1. destruct (0 <? d - 53) eqn:E; [reflexivity|].
    apply Z.ltb_ge in E. replace (d - 53) with 0 by lia. rewrite Z.div_1_r. reflexivity. }
  assert (H1e' : snd (shr_fexp prec emax m e loc_Exact) = e + (d - 53)).
  { rewrite H1e. destruct (0 <? d - 53) eqn:E; [reflexivity|].
    apply Z.ltb_ge in E. lia. }
  clear H1 H1e.
  destruct (shr_fexp prec emax m e loc_Exact) as [r1 e1]. simpl fst in *; simpl snd in *.
  subst e1.
  pose proof (round_nearest_even_bracket (shr_m r1) (loc_of_shr_record r1)) as Hr.
  set (m1 := round_nearest_even (shr_m r1) (loc_of_shr_record r1)) in *.
  rewrite H1' in Hr.
  assert (Hd1 : Zdigits2 m1 = 53) by (apply Zdigits2_unique; simpl Z.sub; lia).
  destruct (shr_fexp_spec m1 (e + (d - 53)) loc_Exact ltac:(lia)) as [H2 H2e].
  rewrite Hd1 in H2, H2e.
  rewrite fexp_binary64 in H2, H2e.
  replace (Z.max (53 + (e + (d - 53)) - 53) (-1074) - (e + (d - 53))) with 0 in H2, H2e by lia.
  simpl in H2, H2e.
  destruct (shr_fexp prec emax m1 (e + (d - 53)) loc_Exact) as [r2 e2].
  simpl fst in *; simpl snd in *. subst e2. rewrite H2.
  destruct m1 as [|M|M]; try lia.
  exists M. split; [|lia].
  replace (e + (d - 53) <=? emax - prec) with true; [reflexivity|].
  symmetry. apply Z.leb_le. unfold emax, prec. lia.
Qed.

(** ** C5 *)

(** A float between two positive floats of one exponent has that exponent
    and a mantissa between theirs. *)
Lemma fle_between (lo hi : positive) (e : Z) (r : pyfloat) :
  fle (S754_finite false lo e) r = true ->
  fle r (S754_finite false hi e) = true ->
  exists m, r = S754_finite false m e /\ Zpos lo <= Zpos m <= Zpos hi.
Proof.
  unfold fle, SFleb.
  destruct r as [s|s| |s m e']; simpl; try discriminate.
  - destruct s; discriminate.
  - destruct s; [discriminate|].
    destruct (Z.compare_spec e e') as [He|He|He]; try discriminate.
    + subst e'. rewrite Z.compare_refl.
      intros H1 H2. exists m. split; [reflexivity|].
      change (Pos.compare_cont Eq lo m) with (lo ?= m)%positive in H1.
      change (Pos.compare_cont Eq m hi) with (m ?= hi)%positive in H2.
      assert ((lo ?= m)%positive <> Gt) by (destruct (lo ?= m)%positive; congruence).
      assert ((m ?= hi)%positive <> Gt) by (destruct (m ?= hi)%positive; congruence).
      split; apply Pos2Z.pos_le_pos; assumption.
    + intros _. destruct (Z.compare_spec e' e) as [He'|He'|He']; try discriminate; lia.
Qed.

Lemma hundred_as_float :
  to_float (PyInt 100) = Returns (S754_finite false 7036874417766400 (-46)).
Proof. vm_compute. reflexivity. Qed.

(** [round(irr * 100, 2)] for a rate between 0.274754 and 0.274756. *)
Lemma irr_percentage_27_48 (m : positive) :
  4949528048074213 <= Zpos m <= 4949564076871232 ->
  (scaled <- mul (PyFloat (S754_finite false m (-54))) (PyInt 100) ;;
   round2 scaled) = Returns (PyFloat float_27_48).
Proof.
  intros Hm.
  unfold mul, arith. cbv beta iota. rewrite hundred_as_float. cbn [to_float bind].
  unfold fmul, SFmul. cbn [xorb].
  replace (-54 + -46) with (-100) by reflexivity.
  assert (P104 : 2 ^ (105 - 1) = 20282409603651670423947251286016) by reflexivity.
  assert (P105 : 2 ^ 105 = 40564819207303340847894502572032) by reflexivity.
  assert (P52 : 2 ^ (105 - 53) = 4503599627370496) by reflexivity.
  assert (P53 : 2 ^ 53 = 9007199254740992) by reflexivity.
  assert (P48 : 2 ^ 48 = 281474976710656) by reflexivity.
  set (p := Zpos (m * 7036874417766400)).
  assert (Hp : p = Zpos m * 7036874417766400) by (unfold p; rewrite Pos2Z.inj_mul; reflexivity).
  pose proof (Z.div_mod p (2 ^ (105 - 53)) ltac:(rewrite P52; lia)) as Hdm.
  pose proof (Z.mod_pos_bound p (2 ^ (105 - 53)) ltac:(rewrite P52; lia)) as Hmod.
  rewrite P52 in Hdm, Hmod.
  destruct (binary_round_aux_normal false p (-100) 105) as (M & HM & Hq).
  { rewrite P104, P105. lia. }
  { lia. }
  { lia. }
  { rewrite P52, P53. lia. }
  rewrite HM. rewrite P52 in Hq.
  replace (-100 + (105 - 53)) with (-48) by reflexivity.
  unfold round2, fround2, hundredths. cbn [bind].
  change (2 ^ Zpos 48) with (2 ^ 48).
  rewrite (round_half_even_bracket (100 * Zpos M) (2 ^ 48) 2748);
    [vm_compute; reflexivity | rewrite P48; lia | reflexivity | rewrite P48; lia].
Qed.

(** C5.  For investor equity 400000 and cash flows [[-400000, 0, 650000]],
    with a solver that returns for these flows a float between 0.274754 and
    0.274756, the interval around [sqrt(650000/400000) - 1] on whose ends the
    net present value changes sign: the function returns the equity multiple
    1.62 and the IRR percentage 27.48, and the total profit computed on the
    way is the int 250000. *)
Theorem script_scenario :
  forall npf_irr (r : pyfloat),
    npf_irr CASH_FLOW_STREAM = Returns r ->
    fle (decimal 274754 6) r = true ->
    fle r (decimal 274756 6) = true ->
    calculate_development_returns npf_irr (PyInt 400000) CASH_FLOW_STREAM
    = Returns (PyFloat float_1_62, VNum (PyFloat float_27_48)) /\
    (exists locals,
        equity_block (PyInt 400000) CASH_FLOW_STREAM = Returns locals /\
        total_distributions locals = PyInt 650000 /\
        total_profit locals = PyInt 250000) /\
    0 < npv_scaled [-400000; 0; 650000] 274754 1000000 /\
    npv_scaled [-400000; 0; 650000] 274756 1000000 < 0.
Proof.
  intros npf_irr r Hr Hlo Hhi.
  assert (Hb : equity_block (PyInt 400000) CASH_FLOW_STREAM
               = Returns {| total_distributions := PyInt 650000;
                            total_profit := PyInt 250000;
                            equity_multiple := PyFloat (decimal 1625 3) |})
    by (vm_compute; reflexivity).
  assert (Hem : round2 (PyFloat (decimal 1625 3)) = Returns (PyFloat float_1_62))
    by (vm_compute; reflexivity).
  replace (decimal 274754 6) with (S754_finite false 4949528048074213 (-54)) in Hlo
    by (vm_compute; reflexivity).
  replace (decimal 274756 6) with (S754_finite false 4949564076871232 (-54)) in Hhi
    by (vm_compute; reflexivity).
  destruct (fle_between _ _ _ _ Hlo Hhi) as (m & -> & Hm).
  split; [|split; [|split]].
  - unfold calculate_development_returns. rewrite Hb. cbn [bind equity_multiple].
    unfold irr_block. rewrite Hr. cbn [bind].
    pose proof (irr_percentage_27_48 m Hm) as Hp.
    destruct (mul (PyFloat (S754_finite false m (-54))) (PyInt 100)) as [scaled|x];
      cbn [bind] in Hp |- *; [|discriminate].
    rewrite Hp. cbn [bind try_except_ValueError]. rewrite Hem. reflexivity.
  - eexists. split; [exact Hb|]. split; reflexivity.
  - reflexivity.
  - reflexivity.
Qed.

Lemma script_scenario_witness :
  calculate_development_returns (irr_returning (decimal 2747548783981961 16))
    (PyInt 400000) CASH_FLOW_STREAM
  = Returns (PyFloat float_1_62, VNum (PyFloat float_27_48)).
Proof.
  apply (script_scenario (irr_returning (decimal 2747548783981961 16))
                         (decimal 2747548783981961 16));
    vm_compute; reflexivity.
Defined.

(** * Further properties of [calculate_development_returns] *)

(** ** Empty input and zero equity *)

Lemma getitem_0_Raises {A : Type} (xs : list A) (x : pyexc) :
  getitem xs 0 = Raises x -> xs = [] /\ x = IndexError.
Proof.
  destruct xs; simpl; intros H; [injection H as <-; auto | discriminate].
Qed.

(** X1.  The equity block raises [IndexError] exactly when there is no cash flow
    at all; the function then raises [IndexError] whatever the equity (zero
    included: the index comes before the division) and whatever the solver,
    which is not consulted. *)
Theorem IndexError_exactly_on_empty_cash_flows :
  forall npf_irr investor_equity cash_flows,
    (equity_block investor_equity cash_flows = Raises IndexError <-> cash_flows = []) /\
    calculate_development_returns npf_irr investor_equity [] = Raises IndexError.
Proof.
  intros npf_irr investor_equity cash_flows. split; [split|reflexivity].
  - intros H. unfold equity_block in H.
    apply bind_Raises_inv in H; destruct H as [H|(td & _ & H)];
      [apply sum_from_Raises in H; discriminate|].
    apply bind_Raises_inv in H; destruct H as [H|(first & _ & H)];
      [apply getitem_0_Raises in H; tauto|].
    apply bind_Raises_inv in H; destruct H as [H|(tp & _ & H)];
      [apply arith_Raises in H; discriminate|].
    apply bind_Raises_inv in H; destruct H as [H|(q & _ & H)]; [|discriminate].
    apply truediv_Raises in H. destruct H; discriminate.
  - intros ->. reflexivity.
Qed.

Lemma truediv_ZeroDivisionError (total divisor : pynum) :
  truediv total divisor = Raises ZeroDivisionError -> eq0 divisor = true.
Proof.
  intros H.
  assert (G : forall fa : pyresult pyfloat,
             (forall y, fa = Raises y -> y = OverflowError) ->
             (a' <- fa ;; b' <- to_float divisor ;;
              if is_zero b' then Raises ZeroDivisionError
              else Returns (PyFloat (fdiv a' b'))) = Raises ZeroDivisionError ->
             exists b', to_float divisor = Returns b' /\ is_zero b' = true).
  { intros fa Ha G.
    apply bind_Raises_inv in G; destruct G as [G|(v & Hv & G)];
      [apply Ha in G; discriminate|].
    apply bind_Raises_inv in G; destruct G as [G|(w & Hw & G)];
      [apply to_float_Raises in G; discriminate|].
    exists w. split; [exact Hw|]. destruct (is_zero w); [reflexivity|discriminate]. }
  unfold truediv in H.
  destruct total as [zt|ft], divisor as [zd|fd]; simpl eq0.
  - destruct (zd =? 0); [reflexivity|].
    apply bind_Raises_inv in H; destruct H as [H|(v & _ & H)]; [|discriminate].
    apply finite_or_overflow_Raises in H. discriminate.
  - apply G in H; [|intros y; apply to_float_Raises].
    destruct H as (b' & Hb & Hz). simpl in Hb. congruence.
  - apply G in H; [|intros y; apply to_float_Raises].
    destruct H as (b' & Hb & Hz).
    destruct (zd =? 0) eqn:E; [reflexivity|]. apply Z.eqb_neq in E.
    rewrite (int_to_float_not_zero zd b' E Hb) in Hz. discriminate.
  - apply G in H; [|intros y; apply to_float_Raises].
    destruct H as (b' & Hb & Hz). simpl in Hb. congruence.
Qed.

Lemma eq0_abs (x : pynum) : eq0 (abs x) = eq0 x.
Proof.
  destruct x as [z|f]; simpl.
  - destruct (Z.eqb_spec (Z.abs z) 0), (Z.eqb_spec z 0); try reflexivity; lia.
  - destruct f; reflexivity.
Qed.

Lemma truediv_by_zero_never_returns (total divisor q : pynum) :
  eq0 divisor = true -> truediv total divisor <> Returns q.
Proof.
  intros Hz H. unfold truediv in H.
  destruct total as [zt|ft], divisor as [zd|fd]; simpl in Hz.
  - rewrite Hz in H. discriminate.
  - bind_inv H. bind_inv H. simpl in Hv0. injection Hv0 as <-.
    rewrite Hz in H. discriminate.
  - apply Z.eqb_eq in Hz. subst zd.
    bind_inv H. bind_inv H. vm_compute in Hv0. injection Hv0 as <-. discriminate.
  - bind_inv H. bind_inv H. simpl in Hv0. injection Hv0 as <-.
    rewrite Hz in H. discriminate.
Qed.

(** X2.  The equity block raises [ZeroDivisionError] only for a zero equity (the
    int 0 or a float zero of either sign), and with a zero equity the
    function never returns a result; with the int 0 as equity and int cash
    flows, at least one of them, it raises [ZeroDivisionError], whatever the
    solver. *)
Theorem zero_equity_never_returns :
  forall npf_irr investor_equity cash_flows,
    (equity_block investor_equity cash_flows = Raises ZeroDivisionError ->
     eq0 investor_equity = true) /\
    (eq0 investor_equity = true ->
     forall r, calculate_development_returns npf_irr investor_equity cash_flows
               <> Returns r) /\
    (forall flows : list Z,
        flows <> [] ->
        calculate_development_returns npf_irr (PyInt 0) (map PyInt flows)
        = Raises ZeroDivisionError).
Proof.
  intros npf_irr investor_equity cash_flows. split; [|split].
  - intros H. unfold equity_block in H.
    apply bind_Raises_inv in H; destruct H as [H|(td & _ & H)];
      [apply sum_from_Raises in H; discriminate|].
    apply bind_Raises_inv in H; destruct H as [H|(first & _ & H)];
      [apply getitem_0_Raises in H; destruct H; discriminate|].
    apply bind_Raises_inv in H; destruct H as [H|(tp & _ & H)];
      [apply arith_Raises in H; discriminate|].
    apply bind_Raises_inv in H; destruct H as [H|(q & _ & H)]; [|discriminate].
    apply truediv_ZeroDivisionError in H. rewrite eq0_abs in H. exact H.
  - intros Hz [em irr] H.
    apply calculate_development_returns_inv in H. destruct H as (locals & Hb & _).
    apply equity_block_inv in Hb. destruct Hb as (first & _ & _ & _ & Hd).
    apply truediv_by_zero_never_returns in Hd; [exact Hd|].
    rewrite eq0_abs. exact Hz.
  - intros flows Hne. unfold calculate_development_returns.
    rewrite equity_block_ints by exact Hne. reflexivity.
Qed.

Lemma zero_equity_never_returns_witness :
  calculate_development_returns (irr_raising ValueError)
    (PyFloat (S754_zero true)) CASH_FLOW_STREAM
  <> Returns (PyFloat float_1_62, irr_failed).
Proof.
  destruct (zero_equity_never_returns (irr_raising ValueError)
              (PyFloat (S754_zero true)) CASH_FLOW_STREAM) as (_ & H & _).
  apply H. reflexivity.
Defined.

(** ** The types of the two components *)

Lemma truediv_is_float (a b q : pynum) : truediv a b = Returns q -> is_float q.
Proof.
  unfold truediv. destruct a as [za|fa], b as [zb|fb]; intros H.
  1:{ destruct (zb =? 0); [discriminate|]. bind_inv H. injection H as <-. exact I. }
  all: bind_inv H; bind_inv H; destruct (is_zero v0); [discriminate|];
    injection H as <-; exact I.
Qed.

Lemma arith_float_left iop fop (a : pyfloat) (y v : pynum) :
  arith iop fop (PyFloat a) y = Returns v -> is_float v.
Proof.
  unfold arith. intros H. destruct y; bind_inv H; bind_inv H; injection H as <-; exact I.
Qed.

Lemma round2_is_float (q r : pynum) : is_float q -> round2 q = Returns r -> is_float r.
Proof.
  destruct q as [z|f]; [contradiction|]. simpl. intros _ H.
  bind_inv H. injection H as <-. exact I.
Qed.

(** X3.  Whatever the types of the arguments (ints, floats or a mix), a returned
    equity multiple is a float, never an int, and a returned IRR component is
    either a float or exactly the placeholder string. *)
Theorem result_components_are_floats :
  forall npf_irr investor_equity cash_flows em irr,
    calculate_development_returns npf_irr investor_equity cash_flows = Returns (em, irr) ->
    is_float em /\
    (irr = irr_failed \/ exists percentage, irr = VNum (PyFloat percentage)).
Proof.
  intros npf_irr investor_equity cash_flows em irr H.
  apply calculate_development_returns_inv in H. destruct H as (locals & Hb & Hi & Hr).
  apply equity_block_inv in Hb. destruct Hb as (first & _ & _ & _ & Hd).
  split.
  - eapply round2_is_float; [|exact Hr]. eapply truediv_is_float; exact Hd.
  - unfold irr_block in Hi. apply try_except_Returns in Hi.
    destruct Hi as [Hi|[_ Hi]]; [|left; congruence].
    right. bind_inv Hi. bind_inv Hi. bind_inv Hi. injection Hi as <-.
    assert (Hf : is_float v1).
    { eapply round2_is_float; [|exact Hv1].
      exact (arith_float_left Z.mul fmul v (PyInt 100) v0 Hv0). }
    destruct v1 as [z|percentage]; [contradiction|]. eauto.
Qed.

Lemma result_components_are_floats_witness :
  is_float (PyFloat float_1_62) /\
  (irr_failed = irr_failed \/ exists percentage, irr_failed = VNum (PyFloat percentage)).
Proof.
  apply (result_components_are_floats
           (irr_raising ValueError) (PyInt 400000) CASH_FLOW_STREAM).
  vm_compute. reflexivity.
Defined.

(** ** What the equity multiple depends on *)

(** X4.  The equity multiple is a function of the strictly positive entries in
    their order and of [abs(investor_equity)] alone, floats included: cash
    flows that are negative, zero or NaN can be added, removed or changed
    anywhere, and the solver replaced, without changing a returned equity
    multiple. *)
Theorem equity_multiple_depends_on_positive_entries :
  forall npf_irr npf_irr' investor_equity investor_equity' cash_flows cash_flows'
         em irr em' irr',
    filter gt0 cash_flows = filter gt0 cash_flows' ->
    abs investor_equity = abs investor_equity' ->
    calculate_development_returns npf_irr investor_equity cash_flows = Returns (em, irr) ->
    calculate_development_returns npf_irr' investor_equity' cash_flows' = Returns (em', irr') ->
    em = em'.
Proof.
  intros npf_irr npf_irr' e e' cfs cfs' em irr em' irr' Hf Ha H H'.
  apply calculate_development_returns_inv in H, H'.
  destruct H as (locals & Hb & _ & Hr), H' as (locals' & Hb' & _ & Hr').
  apply equity_block_inv in Hb, Hb'.
  destruct Hb as (first & Hs & _ & _ & Hd), Hb' as (first' & Hs' & _ & _ & Hd').
  rewrite Hf in Hs. rewrite Ha in Hd.
  assert (Ht : total_distributions locals = total_distributions locals') by congruence.
  rewrite Ht in Hd.
  assert (Hq : equity_multiple locals = equity_multiple locals') by congruence.
  rewrite Hq in Hr. congruence.
Qed.

Lemma equity_multiple_depends_on_positive_entries_witness :
  PyFloat float_1_62 = PyFloat float_1_62.
Proof.
  apply (equity_multiple_depends_on_positive_entries
           (irr_raising ValueError) (irr_returning float_nan)
           (PyInt 400000) (PyInt (-400000))
           CASH_FLOW_STREAM
           [PyFloat float_nan; PyInt 650000; PyInt (-7); PyFloat (S754_zero true)]
           (PyFloat float_1_62) irr_failed
           (PyFloat float_1_62) (VNum (PyFloat float_nan)));
    vm_compute; reflexivity.
Defined.

Lemma filter_gt0_none (cash_flows : list pynum) :
  Forall (fun c => gt0 c = false) cash_flows -> filter gt0 cash_flows = [].
Proof.
  induction 1 as [|c rest Hc _ IH]; simpl; [reflexivity|].
  rewrite Hc. exact IH.
Qed.

(** X5.  When no cash flow is strictly positive, every result the function returns
    has the equity multiple [+0.0] exactly, for any equity other than NaN
    (int or float, of either sign, infinite included) and any solver. *)
Theorem no_distribution_gives_zero_multiple :
  forall npf_irr investor_equity cash_flows em irr,
    Forall (fun c => gt0 c = false) cash_flows ->
    investor_equity <> PyFloat float_nan ->
    calculate_development_returns npf_irr investor_equity cash_flows = Returns (em, irr) ->
    em = PyFloat float_zero.
Proof.
  intros npf_irr e cfs em irr Hnone Hnan H.
  apply calculate_development_returns_inv in H. destruct H as (locals & Hb & _ & Hr).
  apply equity_block_inv in Hb. destruct Hb as (first & Hs & _ & _ & Hd).
  rewrite (filter_gt0_none _ Hnone) in Hs. injection Hs as Hs. rewrite <- Hs in Hd.
  assert (Hq : equity_multiple locals = PyFloat float_zero).
  { destruct e as [z|f]; unfold truediv, abs in Hd.
    - destruct (Z.abs z =? 0) eqn:E; [discriminate|]. apply Z.eqb_neq in E.
      bind_inv Hd. injection Hd as <-.
      apply finite_or_overflow_Returns in Hv. subst v.
      unfold int_quotient. simpl Z.abs.
      replace (Z.abs z <? 0) with false by (symmetry; apply Z.ltb_ge; lia).
      reflexivity.
    - bind_inv Hd. bind_inv Hd. vm_compute in Hv. injection Hv as <-.
      simpl in Hv0. injection Hv0 as <-.
      destruct f as [s|s| |s m x]; simpl in Hd; try discriminate;
        try (injection Hd as <-; reflexivity).
      exfalso. apply Hnan. reflexivity. }
  rewrite Hq in Hr. vm_compute in Hr. injection Hr as <-. reflexivity.
Qed.

Lemma no_distribution_gives_zero_multiple_witness :
  PyFloat float_zero = PyFloat float_zero.
Proof.
  apply (no_distribution_gives_zero_multiple
           (irr_returning float_nan) (PyFloat (S754_infinity true))
           [PyInt (-100); PyFloat float_nan; PyInt 0]
           (PyFloat float_zero) (VNum (PyFloat float_nan))).
  - repeat constructor.
  - discriminate.
  - vm_compute. reflexivity.
Defined.

(** ** Inputs on which nothing is raised *)

Lemma binary_round_aux_below (s : bool) (m e k top : Z) (l : location) :
  0 <= m < 2 ^ k -> 0 <= k -> k + e <= top -> 0 <= top <= 1023 -> e <= 971 ->
  is_infinity (binary_round_aux prec emax s m e l) = false /\
  below_pow2 (top + 1) (binary_round_aux prec emax s m e l).
Proof.
  intros Hm Hk Hke Htop He. unfold binary_round_aux.
  destruct (shr_fexp_bounded m e k top l Hm Hk Hke ltac:(lia) He)
    as (k1 & Hm1 & Hk1 & Hke1 & He1).
  destruct (shr_fexp prec emax m e l) as [r1 e1]. simpl fst in *; simpl snd in *.
  pose proof (round_nearest_even_bracket (shr_m r1) (loc_of_shr_record r1)) as Hr.
  set (m1 := round_nearest_even (shr_m r1) (loc_of_shr_record r1)) in *.
  assert (Hm1' : 0 <= m1 < 2 ^ (k1 + 1)).
  { rewrite Z.pow_add_r, Z.pow_1_r by lia. lia. }
  destruct (shr_fexp_bounded m1 e1 (k1 + 1) (top + 1) loc_Exact Hm1' ltac:(lia) ltac:(lia)
              ltac:(lia) He1) as (k2 & Hm2 & Hk2 & Hke2 & He2).
  destruct (shr_fexp prec emax m1 e1 loc_Exact) as [r2 e2]. simpl fst in *; simpl snd in *.
  destruct (shr_m r2) as [|p|p] eqn:E; try (split; [reflexivity | exact I]).
  replace (e2 <=? emax - prec) with true
    by (symmetry; apply Z.leb_le; unfold emax, prec; lia).
  split; [reflexivity|]. change (Zdigits2 (Zpos p) + e2 <= top + 1).
  pose proof (Zdigits2_le (Zpos p) k2 Hm2 Hk2) as Hd. lia.
Qed.

(** The float quotient of two positive integers, the first below [2^top]. *)
Lemma fdiv_ints_below (s s' : bool) (a b : positive) (top : Z) :
  Zdigits2 (Zpos a) <= top -> top <= 1023 ->
  is_infinity (fdiv (S754_finite s a 0) (S754_finite s' b 0)) = false /\
  below_pow2 (top + 1) (fdiv (S754_finite s a 0) (S754_finite s' b 0)).
Proof.
  intros Hd Htop.
  unfold fdiv, SFdiv, SFdiv_core_binary.
  set (e' := Z.min (fexp prec emax (Zdigits2 (Zpos a) + 0 - (Zdigits2 (Zpos b) + 0))) (0 - 0)).
  assert (He' : e' <= 0) by (unfold e'; lia).
  pose proof (digits2_pos_bounds a) as [_ Ha].
  change (Zpos (digits2_pos a)) with (Zdigits2 (Zpos a)) in Ha.
  set (d := Zdigits2 (Zpos a)) in *.
  assert (Hd0 : 0 < d) by (unfold d; simpl; lia).
  set (m' := match 0 - 0 - e' with
             | Zpos _ => Z.shiftl (Zpos a) (0 - 0 - e') | Z0 => Zpos a | Zneg _ => 0 end).
  assert (Hm' : 0 <= m' < 2 ^ (d - e')).
  { unfold m'. destruct (0 - 0 - e') as [|p|p] eqn:E; try lia.
    - replace (d - e') with d by lia. lia.
    - rewrite Z.shiftl_mul_pow2 by lia. rewrite <- E.
      replace (d - e') with (d + (0 - 0 - e')) by lia.
      rewrite Z.pow_add_r by lia.
      assert (0 < 2 ^ (0 - 0 - e')) by (apply Z.pow_pos_nonneg; lia). nia. }
  destruct (Z.div_eucl m' (Zpos b)) as [q r] eqn:Eq.
  assert (Hq : q = m' / Zpos b) by (unfold Z.div; rewrite Eq; reflexivity).
  assert (Hq0 : 0 <= q) by (rewrite Hq; apply Z.div_pos; lia).
  assert (Hqm : q <= m').
  { rewrite Hq. apply Z.div_le_upper_bound; [lia | nia]. }
  apply (binary_round_aux_below _ q e' (d - e') top); lia.
Qed.

Lemma round_half_even_bounds (n d : Z) :
  0 < d -> n / d <= round_half_even n d <= n / d + 1.
Proof.
  intros Hd. unfold round_half_even.
  destruct (2 * (n mod d) ?= d); [destruct (Z.even (n / d))| |]; lia.
Qed.

Lemma hundredths_below (m : positive) (e top : Z) :
  Zdigits2 (Zpos m) + e <= top -> 0 <= top ->
  0 <= hundredths m e < 2 ^ (top + 8).
Proof.
  intros Hd Htop.
  pose proof (digits2_pos_bounds m) as [_ Hm].
  change (Zpos (digits2_pos m)) with (Zdigits2 (Zpos m)) in Hm.
  set (d := Zdigits2 (Zpos m)) in *.
  assert (Hd0 : 0 < d) by (unfold d; simpl; lia).
  assert (H100 : 100 * Zpos m < 2 ^ (d + 7)).
  { rewrite Z.pow_add_r by lia. change (2 ^ 7) with 128. lia. }
  assert (Hmono : forall a b, 0 <= a <= b -> 2 ^ a <= 2 ^ b)
    by (intros; apply Z.pow_le_mono_r; lia).
  unfold hundredths. destruct e as [|p|p].
  - rewrite Z.pow_0_r, Z.mul_1_r.
    pose proof (Hmono (d + 7) (top + 8) ltac:(lia)). lia.
  - assert (P : 0 < 2 ^ Zpos p) by (apply Z.pow_pos_nonneg; lia).
    split; [nia|].
    apply Z.lt_le_trans with (2 ^ (d + 7) * 2 ^ Zpos p); [nia|].
    rewrite <- Z.pow_add_r by lia. apply Hmono. lia.
  - assert (P : 0 < 2 ^ Zpos p) by (apply Z.pow_pos_nonneg; lia).
    pose proof (round_half_even_bounds (100 * Zpos m) (2 ^ Zpos p) P) as [Hlo Hhi].
    assert (Hq0 : 0 <= 100 * Zpos m / 2 ^ Zpos p) by (apply Z.div_pos; lia).
    split; [lia|].
    assert (Hq : 100 * Zpos m / 2 ^ Zpos p < 2 ^ (top + 7)).
    { apply Z.div_lt_upper_bound; [exact P|].
      rewrite <- Z.pow_add_r by lia.
      pose proof (Hmono (d + 7) (Zpos p + (top + 7)) ltac:(lia)). lia. }
    replace (top + 8) with (top + 7 + 1) by lia.
    rewrite Z.pow_add_r, Z.pow_1_r by lia. lia.
Qed.

Lemma fround2_returns (f : pyfloat) (top : Z) :
  below_pow2 top f -> 0 <= top <= 1015 -> exists r, fround2 f = Returns r.
Proof.
  intros Hf Htop. destruct f as [s|s| |s m e]; unfold fround2; cbv beta iota; eauto.
  change (Zdigits2 (Zpos m) + e <= top) in Hf.
  pose proof (hundredths_below m e top Hf ltac:(lia)) as Hh.
  destruct (hundredths m e) as [|k|k]; eauto.
  destruct (fdiv_ints_below s false k 100 (top + 8)) as [Hfin _].
  { apply Zdigits2_le; lia. }
  { lia. }
  unfold finite_or_overflow. rewrite Hfin. eauto.
Qed.

Lemma round2_returns (x : pynum) (top : Z) :
  (forall f, x = PyFloat f -> below_pow2 top f) -> 0 <= top <= 1015 ->
  exists r, round2 x = Returns r.
Proof.
  intros Hx Htop. destruct x as [z|f]; simpl; eauto.
  destruct (fround2_returns f top (Hx f eq_refl) Htop) as (r & ->). simpl. eauto.
Qed.

Lemma fmul_100_below (r : pyfloat) :
  below_pow2 1000 r ->
  below_pow2 1008 (fmul r (S754_finite false 7036874417766400 (-46))).
Proof.
  destruct r as [s|s| |s m e]; intros Hr; try exact I.
  change (Zdigits2 (Zpos m) + e <= 1000) in Hr.
  unfold fmul, SFmul.
  pose proof (digits2_pos_bounds m) as [_ Hm].
  change (Zpos (digits2_pos m)) with (Zdigits2 (Zpos m)) in Hm.
  set (d := Zdigits2 (Zpos m)) in *.
  assert (Hd0 : 0 < d) by (unfold d; simpl; lia).
  apply (binary_round_aux_below _ _ _ (d + 53) 1007); try lia.
  rewrite Pos2Z.inj_mul, Z.pow_add_r by lia.
  change (2 ^ 53) with 9007199254740992. nia.
Qed.

Lemma irr_block_returns npf_irr cash_flows :
  npf_irr cash_flows = Raises ValueError \/
  (exists r, npf_irr cash_flows = Returns r /\ below_pow2 1000 r) ->
  exists irr, irr_block npf_irr cash_flows = Returns irr.
Proof.
  intros [Hv|(r & Hr & Hb)].
  - rewrite (irr_block_ValueError _ _ Hv). eauto.
  - unfold irr_block. rewrite Hr. cbn [bind].
    unfold mul, arith. cbv beta iota. rewrite hundred_as_float. cbn [to_float bind].
    destruct (round2_returns
                (PyFloat (fmul r (S754_finite false 7036874417766400 (-46)))) 1008)
      as (p & ->); [|lia|cbn [bind try_except_ValueError]; eauto].
    intros f Hf. injection Hf as <-. apply fmul_100_below. exact Hb.
Qed.

Lemma returns_of_bounded_ints :
  forall npf_irr (equity : Z) (flows : list Z),
    equity <> 0 -> flows <> [] ->
    list_total (positive_entries flows) < 2 ^ 1000 ->
    (npf_irr (map PyInt flows) = Raises ValueError \/
     exists r, npf_irr (map PyInt flows) = Returns r /\ below_pow2 1000 r) ->
    exists em irr,
      calculate_development_returns npf_irr (PyInt equity) (map PyInt flows)
      = Returns (em, irr).
Proof.
  intros npf_irr equity flows He Hne Hlt Hs.
  unfold calculate_development_returns.
  rewrite equity_block_ints by exact Hne.
  pose proof (list_total_positive_entries_nonneg flows) as H0.
  set (T := list_total (positive_entries flows)) in *.
  cbn [abs truediv].
  replace (Z.abs equity =? 0) with false by (symmetry; apply Z.eqb_neq; lia).
  assert (Hq : is_infinity (int_quotient T (Z.abs equity)) = false /\
               below_pow2 1001 (int_quotient T (Z.abs equity))).
  { unfold int_quotient.
    destruct (Z.abs T) as [|a|a] eqn:Ea; try (split; [reflexivity | exact I]).
    destruct (Z.abs (Z.abs equity)) as [|b|b] eqn:Eb; try (split; [reflexivity | exact I]).
    apply (fdiv_ints_below _ _ a b 1000); [|lia].
    apply Zdigits2_le; lia. }
  destruct Hq as [Hfin Hbelow].
  unfold finite_or_overflow. rewrite Hfin. cbn [bind equity_multiple].
  destruct (irr_block_returns npf_irr (map PyInt flows) Hs) as (irr & ->). cbn [bind].
  destruct (round2_returns (PyFloat (int_quotient T (Z.abs equity))) 1001)
    as (em & ->); [|lia|cbn [bind]; eauto].
  intros f Hf. injection Hf as <-. exact Hbelow.
Qed.

(** X6.  With int cash flows, at least one of them, whose positive entries total
    less than [2^1000], a nonzero int equity, and a solver that either raises
    [ValueError] or returns a float that is NaN, infinite or below [2^1000]
    in magnitude, the function returns a result: nothing is raised. *)
Theorem returns_on_bounded_int_inputs :
  forall npf_irr (equity : Z) (flows : list Z),
    equity <> 0 -> flows <> [] ->
    list_total (positive_entries flows) < 2 ^ 1000 ->
    (npf_irr (map PyInt flows) = Raises ValueError \/
     exists r, npf_irr (map PyInt flows) = Returns r /\ below_pow2 1000 r) ->
    exists em irr,
      calculate_development_returns npf_irr (PyInt equity) (map PyInt flows)
      = Returns (em, irr).
Proof.
  intros npf_irr equity flows. apply returns_of_bounded_ints.
Qed.

Lemma returns_on_bounded_int_inputs_witness :
  exists em irr,
    calculate_development_returns (irr_returning (decimal 2747548783981961 16))
      (PyInt 400000) (map PyInt [-400000; 0; 650000]) = Returns (em, irr).
Proof.
  apply (returns_on_bounded_int_inputs
           (irr_returning (decimal 2747548783981961 16)) 400000 [-400000; 0; 650000]).
  - lia.
  - discriminate.
  - vm_compute. reflexivity.
  - right. eexists. split; [reflexivity|]. vm_compute. discriminate.
Defined.

(** * The script *)

(** ** The total profit the script prints *)

Lemma printed_total_profit_ints (investor_equity year_1 year_2 : Z) :
  printed_total_profit (PyInt investor_equity)
    [PyInt investor_equity; PyInt year_1; PyInt year_2]
  = Returns (PyInt (year_2 - Z.abs investor_equity)).
Proof. reflexivity. Qed.

(** X7.  The last line of the script prints [CASH_FLOW_STREAM[-1] -
    abs(INVESTOR_EQUITY)], which is not how the function computes its own
    total profit (all positive entries minus [abs(cash_flows[0])]).  For the
    script's stream [[INVESTOR_EQUITY, year_1, year_2]] of ints the two agree
    exactly when [INVESTOR_EQUITY <= 0], [year_1 <= 0] and [year_2 >= 0]: a
    distribution in year 1, or a loss in year 2, makes the printed profit
    differ from the function's. *)
Theorem printed_profit_agrees_with_function :
  forall (investor_equity year_1 year_2 : Z) locals,
    equity_block (abs (PyInt investor_equity))
      [PyInt investor_equity; PyInt year_1; PyInt year_2] = Returns locals ->
    (printed_total_profit (PyInt investor_equity)
       [PyInt investor_equity; PyInt year_1; PyInt year_2]
     = Returns (total_profit locals)
     <-> investor_equity <= 0 /\ year_1 <= 0 /\ 0 <= year_2).
Proof.
  intros E y1 y2 locals Hb.
  rewrite printed_total_profit_ints.
  change [PyInt E; PyInt y1; PyInt y2] with (map PyInt [E; y1; y2]) in Hb.
  rewrite equity_block_ints in Hb by discriminate.
  bind_inv Hb. injection Hb as <-. cbn [total_profit hd].
  unfold positive_entries, list_total. simpl filter.
  destruct (Z.ltb_spec 0 E), (Z.ltb_spec 0 y1), (Z.ltb_spec 0 y2); simpl fold_right;
    (split; [intros H'; injection H' as H'; lia | intros H'; do 2 f_equal; lia]).
Qed.

Lemma printed_profit_agrees_with_function_witness :
  printed_total_profit INVESTOR_EQUITY CASH_FLOW_STREAM = Returns (PyInt 250000)
  <-> -400000 <= 0 /\ 0 <= 0 /\ 0 <= 650000.
Proof.
  apply (printed_profit_agrees_with_function (-400000) 0 650000
           {| total_distributions := PyInt 650000;
              total_profit := PyInt 250000;
              equity_multiple := PyFloat (decimal 1625 3) |}).
  vm_compute. reflexivity.
Defined.

(** ** What the script prints *)

Section ScriptFacts.

Variable npf_irr : list pynum -> pyresult pyfloat.
Variable str_float : pyfloat -> string.

Lemma script_call_raises (investor_equity duration year_1 year_2 : Z) (w : world) x :
  calculate_development_returns npf_irr (abs (PyInt investor_equity))
    [PyInt investor_equity; PyInt year_1; PyInt year_2] = Raises x ->
  script npf_irr str_float investor_equity duration year_1 year_2 w
  = (Raises x, with_stream investor_equity year_1 year_2 w).
Proof.
  intros H. unfold script, act_bind at 1 2, new_cash_flows.
  rewrite calculate_development_returns_in_spec. cbn [cash_flows_object].
  rewrite H. reflexivity.
Qed.

(** A run that completes: the call, the two [,.0f] formats and the three
    conversions to text return. *)
Lemma script_completes (investor_equity duration year_1 year_2 : Z) (w : world)
      em irr equity_text duration_text em_text irr_text profit_text :
  calculate_development_returns npf_irr (abs (PyInt investor_equity))
    [PyInt investor_equity; PyInt year_1; PyInt year_2] = Returns (em, irr) ->
  format_comma_0f (abs (PyInt investor_equity)) = Returns equity_text ->
  str_int duration = Returns duration_text ->
  str_num str_float em = Returns em_text ->
  str_val str_float irr = Returns irr_text ->
  format_comma_0f (PyInt (year_2 - Z.abs investor_equity)) = Returns profit_text ->
  script npf_irr str_float investor_equity duration year_1 year_2 w
  = (Returns tt,
     {| cash_flows_object := [PyInt investor_equity; PyInt year_1; PyInt year_2];
        stdout := stdout w
                  ++ report equity_text duration_text em_text irr_text profit_text |}).
Proof.
  intros Hc He Hd Hm Hi Hp. unfold script, act_bind at 1 2, new_cash_flows.
  rewrite calculate_development_returns_in_spec. cbn [cash_flows_object].
  rewrite Hc. unfold act_bind, print, act_lift, read_items.
  cbn [cash_flows_object stdout fst snd]. rewrite He.
  cbn [cash_flows_object stdout]. rewrite Hd.
  cbn [cash_flows_object stdout]. rewrite Hm.
  cbn [cash_flows_object stdout]. rewrite Hi.
  cbn [cash_flows_object stdout]. rewrite printed_total_profit_ints, Hp.
  cbn [cash_flows_object stdout]. unfold report.
  rewrite <- !app_assoc. reflexivity.
Qed.

(** Conversely a run that returns went through all six. *)
Lemma script_Returns_inv (investor_equity duration year_1 year_2 : Z) (w w' : world) :
  script npf_irr str_float investor_equity duration year_1 year_2 w = (Returns tt, w') ->
  exists em irr equity_text duration_text em_text irr_text profit_text,
    calculate_development_returns npf_irr (abs (PyInt investor_equity))
      [PyInt investor_equity; PyInt year_1; PyInt year_2] = Returns (em, irr) /\
    format_comma_0f (abs (PyInt investor_equity)) = Returns equity_text /\
    str_int duration = Returns duration_text /\
    str_num str_float em = Returns em_text /\
    str_val str_float irr = Returns irr_text /\
    format_comma_0f (PyInt (year_2 - Z.abs investor_equity)) = Returns profit_text /\
    stdout w'
    = stdout w ++ report equity_text duration_text em_text irr_text profit_text.
Proof.
  intros H.
  destruct (calculate_development_returns npf_irr (abs (PyInt investor_equity))
              [PyInt investor_equity; PyInt year_1; PyInt year_2]) as [[em irr]|x] eqn:Hc.
  2:{ rewrite (script_call_raises _ _ _ _ _ _ Hc) in H. discriminate. }
  destruct (format_comma_0f (abs (PyInt investor_equity))) as [et|x] eqn:He;
    [destruct (str_int duration) as [dt|x] eqn:Hd;
     [destruct (str_num str_float em) as [mt|x] eqn:Hm;
      [destruct (str_val str_float irr) as [it|x] eqn:Hi;
       [destruct (format_comma_0f (PyInt (year_2 - Z.abs investor_equity)))
          as [pt|x] eqn:Hp|]|]|]|].
  1:{ rewrite (script_completes _ duration _ _ w _ _ _ _ _ _ _ Hc He Hd Hm Hi Hp) in H.
      injection H as <-. exists em, irr, et, dt, mt, it, pt. repeat split; assumption. }
  all: exfalso; revert H; unfold script, act_bind at 1 2, new_cash_flows;
    rewrite calculate_development_returns_in_spec; cbn [cash_flows_object];
    rewrite Hc; unfold act_bind, print, act_lift, read_items;
    cbn [cash_flows_object stdout fst snd]; rewrite He;
    try discriminate; cbn [cash_flows_object stdout]; rewrite Hd;
    try discriminate; cbn [cash_flows_object stdout]; rewrite Hm;
    try discriminate; cbn [cash_flows_object stdout]; rewrite Hi;
    try discriminate; cbn [cash_flows_object stdout];
    rewrite printed_total_profit_ints, Hp; discriminate.
Qed.

End ScriptFacts.

(** ** The [,.0f] format on ints *)

Lemma iter_xO_pow (n p : positive) :
  Zpos (Pos.iter xO p n) = Zpos p * 2 ^ Zpos n.
Proof.
  induction n as [|n IH] using Pos.peano_ind.
  - simpl Pos.iter. change (Zpos p~0) with (2 * Zpos p). change (2 ^ 1) with 2. lia.
  - rewrite Pos.iter_succ. change (Zpos (Pos.iter xO p n)~0) with (2 * Zpos (Pos.iter xO p n)).
    rewrite IH, Pos2Z.inj_succ, Z.pow_succ_r by lia. lia.
Qed.

Lemma binary_round_aux_exact (s : bool) (m : positive) (e : Z) :
  Zdigits2 (Zpos m) = 53 -> -1074 <= e <= 971 ->
  binary_round_aux prec emax s (Zpos m) e loc_Exact = S754_finite s m e.
Proof.
  intros Hd He.
  assert (Hs : shr_fexp prec emax (Zpos m) e loc_Exact
               = ({| shr_m := Zpos m; shr_r := false; shr_s := false |}, e)).
  { unfold shr_fexp. rewrite Hd, fexp_binary64.
    replace (Z.max (53 + e - 53) (-1074) - e) with 0 by lia. reflexivity. }
  unfold binary_round_aux. rewrite Hs. cbn [shr_m loc_of_shr_record round_nearest_even].
  rewrite Hs. cbn [shr_m].
  replace (e <=? emax - prec) with true; [reflexivity|].
  symmetry. apply Z.leb_le. unfold emax, prec. lia.
Qed.

(** An int below [2^53] in magnitude converts to the float of that value. *)
Lemma binary_round_small (s : bool) (p : positive) :
  Zpos p < 2 ^ 53 ->
  exists m e, binary_round prec emax s p 0 = S754_finite s m e /\ units m e = Zpos p.
Proof.
  intros Hp. unfold binary_round, shl_align.
  pose proof (digits2_pos_bounds p) as [Plo Phi].
  pose proof (Zdigits2_le (Zpos p) 53 ltac:(lia) ltac:(lia)) as Hd. simpl Zdigits2 in Hd.
  set (d := Zpos (digits2_pos p)) in *.
  assert (Hd0 : 0 < d) by (unfold d; lia).
  rewrite fexp_binary64.
  replace (Z.max (d + 0 - 53) (-1074) - 0) with (d - 53) by lia.
  replace (Z.max (d + 0 - 53) (-1074)) with (d - 53) by lia.
  destruct (d - 53) as [|n|n] eqn:E; try lia.
  - exists p, 0. split.
    + apply binary_round_aux_exact; [simpl; fold d; lia | lia].
    + unfold units. rewrite Z.pow_0_r. lia.
  - exists (Pos.iter xO p n), (Zneg n).
    assert (P : 0 < 2 ^ Zpos n) by (apply Z.pow_pos_nonneg; lia).
    split.
    + apply binary_round_aux_exact; [|lia].
      apply Zdigits2_unique; [|lia]. rewrite iter_xO_pow.
      replace (2 ^ (53 - 1)) with (2 ^ ((d - 1) + Zpos n)) by (f_equal; lia).
      replace (2 ^ 53) with (2 ^ (d + Zpos n)) by (f_equal; lia).
      rewrite !Z.pow_add_r by lia. nia.
    + unfold units. rewrite iter_xO_pow.
      unfold round_half_even. rewrite Z.mod_mul, Z.div_mul by lia.
      change (2 * 0) with 0.
      destruct (Z.compare_spec 0 (2 ^ Zpos n)); lia.
Qed.

Lemma int_to_float_returns (z : Z) :
  Z.abs z < 2 ^ 1023 -> exists f, int_to_float z = Returns f.
Proof.
  intros Hz. unfold int_to_float, finite_or_overflow.
  assert (G : forall s p, Zpos p < 2 ^ 1023 ->
              is_infinity (binary_round prec emax s p 0) = false).
  { intros s p Hp. unfold binary_round, shl_align.
    pose proof (digits2_pos_bounds p) as [Plo Phi].
    pose proof (Zdigits2_le (Zpos p) 1023 ltac:(lia) ltac:(lia)) as Hd. simpl Zdigits2 in Hd.
    set (d := Zpos (digits2_pos p)) in *.
    assert (Hd0 : 0 < d) by (unfold d; lia).
    rewrite fexp_binary64.
    destruct (Z.max (d + 0 - 53) (-1074) - 0) as [|n|n] eqn:E.
    - apply (binary_round_aux_below s (Zpos p) 0 d 1023); lia.
    - apply (binary_round_aux_below s (Zpos p) 0 d 1023); lia.
    - apply (binary_round_aux_below s _ _ (d + Zpos n) 1023); try lia.
      rewrite iter_xO_pow, Z.pow_add_r by lia.
      assert (0 < 2 ^ Zpos n) by (apply Z.pow_pos_nonneg; lia). nia. }
  destruct z as [|p|p]; cbn [binary_normalize].
  - cbn [is_infinity]. eauto.
  - rewrite G by lia. eauto.
  - rewrite G by lia. eauto.
Qed.

Lemma format_comma_0f_returns (z : Z) :
  Z.abs z < 2 ^ 1023 -> exists text, format_comma_0f (PyInt z) = Returns text.
Proof.
  intros Hz. unfold format_comma_0f. cbn [to_float].
  destruct (int_to_float_returns z Hz) as (f & ->). cbn [bind]. eauto.
Qed.

(** X8.  Although [,.0f] goes through a float, an int below [2^53] in magnitude
    is printed with all its digits, grouped in threes, as [,d] would print
    it; at [2**53 + 1] the last digit is already lost. *)
Theorem comma_0f_prints_small_ints_exactly :
  (forall z : Z,
      Z.abs z < 2 ^ 53 ->
      format_comma_0f (PyInt z)
      = Returns (String.append (minus_sign (z <? 0))
                               (group_thousands (digits_of (Z.abs z))))) /\
  format_comma_0f (PyInt (2 ^ 53 + 1)) = Returns "9,007,199,254,740,992"%string.
Proof.
  split; [|vm_compute; reflexivity].
  intros z Hz. unfold format_comma_0f. cbn [to_float]. unfold int_to_float.
  destruct z as [|p|p]; cbn [binary_normalize].
  - reflexivity.
  - destruct (binary_round_small false p ltac:(lia)) as (m & e & -> & Hu).
    cbn [finite_or_overflow is_infinity bind format_float_comma_0f].
    rewrite Hu. reflexivity.
  - destruct (binary_round_small true p ltac:(lia)) as (m & e & -> & Hu).
    cbn [finite_or_overflow is_infinity bind format_float_comma_0f].
    rewrite Hu. reflexivity.
Qed.

Lemma comma_0f_prints_small_ints_exactly_witness :
  format_comma_0f (PyInt 400000) = Returns "400,000"%string.
Proof.
  destruct comma_0f_prints_small_ints_exactly as [H _].
  rewrite (H 400000) by (vm_compute; reflexivity). vm_compute. reflexivity.
Defined.

(** ** Runs of the script *)

(** X9.  When the solver raises [ValueError] and the script runs to its end, it
    has printed seven lines after what was on the console, and the sixth is
    the placeholder followed by the percent sign that the f-string appends
    to every IRR. *)
Theorem failed_irr_is_printed_with_percent_sign :
  forall npf_irr str_float (investor_equity duration year_1 year_2 : Z) (w w' : world),
    npf_irr [PyInt investor_equity; PyInt year_1; PyInt year_2] = Raises ValueError ->
    script npf_irr str_float investor_equity duration year_1 year_2 w = (Returns tt, w') ->
    exists l1 l2 l3 l4 l5 l7,
      stdout w' = stdout w ++
        [l1; l2; l3; l4; l5;
         "Internal Rate of Return (IRR): N/A (IRR calculation failed)%"%string; l7].
Proof.
  intros npf_irr str_float E D y1 y2 w w' Hv H.
  apply script_Returns_inv in H.
  destruct H as (em & irr & et & dt & mt & it & pt & Hc & _ & _ & _ & Ht & _ & Hout).
  apply calculate_development_returns_inv in Hc. destruct Hc as (locals & _ & Hi & _).
  rewrite (irr_block_ValueError _ _ Hv) in Hi. injection Hi as Hi. subst irr.
  injection Ht as <-.
  rewrite Hout. unfold report. do 6 eexists. reflexivity.
Qed.

Lemma failed_irr_is_printed_with_percent_sign_witness :
  exists l1 l2 l3 l4 l5 l7,
    ["earlier output"%string;
     "--- Real Estate Investment Pro Forma ---"%string;
     "Initial Investor Equity: $400,000"%string;
     "Total Project Duration: 2 years"%string;
     "-----------------------------------"%string;
     "Equity Multiple (EM): <1.62>x"%string;
     "Internal Rate of Return (IRR): N/A (IRR calculation failed)%"%string;
     "Total Profit: $250,000"%string]
    = ["earlier output"%string] ++
      [l1; l2; l3; l4; l5;
       "Internal Rate of Return (IRR): N/A (IRR calculation failed)%"%string; l7].
Proof.
  apply (failed_irr_is_printed_with_percent_sign
           (irr_raising ValueError) (fun _ => "<1.62>"%string)
           (-400000) 2 0 650000
           {| cash_flows_object := []; stdout := ["earlier output"%string] |}
           {| cash_flows_object := CASH_FLOW_STREAM;
              stdout := ["earlier output"%string;
                         "--- Real Estate Investment Pro Forma ---"%string;
                         "Initial Investor Equity: $400,000"%string;
                         "Total Project Duration: 2 years"%string;
                         "-----------------------------------"%string;
                         "Equity Multiple (EM): <1.62>x"%string;
                         "Internal Rate of Return (IRR): N/A (IRR calculation failed)%"%string;
                         "Total Profit: $250,000"%string] |}).
  - reflexivity.
  - vm_compute. reflexivity.
Defined.

(** X10.  The call comes before the first [print]: when the function raises, the
    script raises the same exception and has printed nothing.  With
    [INVESTOR_EQUITY = 0] that exception is [ZeroDivisionError], whatever the
    other constants and the solver. *)
Theorem script_prints_nothing_when_the_call_raises :
  forall npf_irr str_float (investor_equity duration year_1 year_2 : Z) (w : world),
    (forall x,
        calculate_development_returns npf_irr (abs (PyInt investor_equity))
          [PyInt investor_equity; PyInt year_1; PyInt year_2] = Raises x ->
        fst (script npf_irr str_float investor_equity duration year_1 year_2 w) = Raises x /\
        stdout (snd (script npf_irr str_float investor_equity duration year_1 year_2 w))
        = stdout w) /\
    fst (script npf_irr str_float 0 duration year_1 year_2 w) = Raises ZeroDivisionError /\
    stdout (snd (script npf_irr str_float 0 duration year_1 year_2 w)) = stdout w.
Proof.
  intros npf_irr str_float E D y1 y2 w. split.
  - intros x Hx. rewrite (script_call_raises _ _ _ _ _ _ _ _ Hx). split; reflexivity.
  - assert (H0 : calculate_development_returns npf_irr (abs (PyInt 0))
                   [PyInt 0; PyInt y1; PyInt y2] = Raises ZeroDivisionError).
    { unfold calculate_development_returns.
      change [PyInt 0; PyInt y1; PyInt y2] with (map PyInt [0; y1; y2]).
      rewrite equity_block_ints by discriminate. reflexivity. }
    rewrite (script_call_raises _ _ _ _ _ _ _ _ H0). split; reflexivity.
Qed.

Lemma script_prints_nothing_when_the_call_raises_witness :
  fst (script (irr_raising TypeError) (fun _ => ""%string) (-400000) 2 0 650000
         {| cash_flows_object := []; stdout := [] |}) = Raises TypeError /\
  stdout (snd (script (irr_raising TypeError) (fun _ => ""%string) (-400000) 2 0 650000
                 {| cash_flows_object := []; stdout := [] |})) = [].
Proof.
  destruct (script_prints_nothing_when_the_call_raises
              (irr_raising TypeError) (fun _ => ""%string) (-400000) 2 0 650000
              {| cash_flows_object := []; stdout := [] |}) as (H & _).
  apply H. vm_compute. reflexivity.
Defined.

(** What the two f-strings of the results are handed: floats, or the
    placeholder. *)
Lemma returned_components_are_floats npf_irr investor_equity cash_flows em irr :
  calculate_development_returns npf_irr investor_equity cash_flows = Returns (em, irr) ->
  (exists multiple, em = PyFloat multiple) /\
  (irr = irr_failed \/ exists percentage, irr = VNum (PyFloat percentage)).
Proof.
  intros H.
  apply calculate_development_returns_inv in H. destruct H as (locals & Hb & Hi & Hr).
  apply equity_block_inv in Hb. destruct Hb as (first & _ & _ & _ & Hd).
  split.
  - assert (Hf : is_float em).
    { eapply round2_is_float; [|exact Hr]. eapply truediv_is_float; exact Hd. }
    destruct em as [z|multiple]; [contradiction|]. eauto.
  - unfold irr_block in Hi. apply try_except_Returns in Hi.
    destruct Hi as [Hi|[_ Hi]]; [|left; congruence].
    right. bind_inv Hi. bind_inv Hi. bind_inv Hi. injection Hi as <-.
    assert (Hf : is_float v1).
    { eapply round2_is_float; [|exact Hv1].
      exact (arith_float_left Z.mul fmul v (PyInt 100) v0 Hv0). }
    destruct v1 as [z|percentage]; [contradiction|]. eauto.
Qed.

Lemma str_int_returns (z : Z) :
  decimal_digits z <= int_max_str_digits ->
  str_int z = Returns (NilZero.string_of_int (Z.to_int z)).
Proof.
  intros H. unfold str_int.
  destruct (Z.ltb_spec int_max_str_digits (decimal_digits z)); [lia | reflexivity].
Qed.

(** X11.  With a nonzero [INVESTOR_EQUITY], cash-flow constants below [2^998] in
    magnitude, a [PROJECT_DURATION_YEARS] of no more digits than
    [sys.int_max_str_digits], and a solver that raises [ValueError] or
    returns a float that is NaN, infinite or below [2^1000], the script runs
    to its end and prints exactly its seven lines: nothing is raised by the
    call, by the formats or by the conversions to text. *)
Theorem script_runs_to_its_end :
  forall npf_irr str_float (investor_equity duration year_1 year_2 : Z) (w : world),
    investor_equity <> 0 ->
    Z.abs investor_equity < 2 ^ 998 -> Z.abs year_1 < 2 ^ 998 -> Z.abs year_2 < 2 ^ 998 ->
    decimal_digits duration <= int_max_str_digits ->
    (npf_irr [PyInt investor_equity; PyInt year_1; PyInt year_2] = Raises ValueError \/
     exists r, npf_irr [PyInt investor_equity; PyInt year_1; PyInt year_2] = Returns r /\
               below_pow2 1000 r) ->
    exists (em : pyfloat) (irr_text equity_text profit_text : string),
      (irr_text = "N/A (IRR calculation failed)"%string \/
       exists irr : pyfloat, irr_text = str_float irr) /\
      script npf_irr str_float investor_equity duration year_1 year_2 w
      = (Returns tt,
         {| cash_flows_object := [PyInt investor_equity; PyInt year_1; PyInt year_2];
            stdout := stdout w ++
              [ "--- Real Estate Investment Pro Forma ---";
                "Initial Investor Equity: $" ++ equity_text;
                "Total Project Duration: "
                  ++ NilZero.string_of_int (Z.to_int duration) ++ " years";
                "-----------------------------------";
                "Equity Multiple (EM): " ++ str_float em ++ "x";
                "Internal Rate of Return (IRR): " ++ irr_text ++ "%";
                "Total Profit: $" ++ profit_text ]%string |}).
Proof.
  intros npf_irr str_float E D y1 y2 w HE Hb Hb1 Hb2 Hd Hs.
  assert (P : 2 ^ 1000 = 4 * 2 ^ 998 /\ 2 ^ 1023 = 2 ^ 25 * 2 ^ 998 /\ 0 < 2 ^ 998).
  { split; [|split]; [reflexivity | reflexivity | apply Z.pow_pos_nonneg; lia]. }
  destruct P as (P1 & P2 & P3). change (2 ^ 25) with 33554432 in P2.
  destruct (returns_of_bounded_ints npf_irr (Z.abs E) [E; y1; y2]) as (em & irr & Hc).
  - lia.
  - discriminate.
  - unfold positive_entries, list_total. simpl filter.
    destruct (Z.ltb_spec 0 E), (Z.ltb_spec 0 y1), (Z.ltb_spec 0 y2); simpl fold_right; lia.
  - exact Hs.
  - destruct (format_comma_0f_returns (Z.abs E) ltac:(lia)) as (et & He).
    destruct (format_comma_0f_returns (y2 - Z.abs E) ltac:(lia)) as (pt & Hp).
    destruct (returned_components_are_floats _ _ _ _ _ Hc) as ((f & ->) & Hirr).
    assert (Hi : exists it, str_val str_float irr = Returns it /\
                            (it = "N/A (IRR calculation failed)"%string \/
                             exists p : pyfloat, it = str_float p)).
    { destruct Hirr as [-> | (p & ->)]; eexists; (split; [reflexivity|]); eauto. }
    destruct Hi as (it & Hi & Hit).
    exists f, it, et, pt. split; [exact Hit|].
    apply (script_completes npf_irr str_float E D y1 y2 w (PyFloat f) irr et _ _ it pt
             Hc He (str_int_returns D Hd) eq_refl Hi Hp).
Qed.

Lemma script_runs_to_its_end_witness :
  exists (em : pyfloat) (irr_text equity_text profit_text : string),
    (irr_text = "N/A (IRR calculation failed)"%string \/
     exists irr : pyfloat, irr_text = "?"%string) /\
    script (irr_returning (decimal 2747548783981961 16)) (fun _ => "?"%string)
      (-400000) 2 0 650000 {| cash_flows_object := []; stdout := [] |}
    = (Returns tt,
       {| cash_flows_object := [PyInt (-400000); PyInt 0; PyInt 650000];
          stdout := [] ++
            [ "--- Real Estate Investment Pro Forma ---";
              "Initial Investor Equity: $" ++ equity_text;
              "Total Project Duration: "
                ++ NilZero.string_of_int (Z.to_int 2) ++ " years";
              "-----------------------------------";
              "Equity Multiple (EM): " ++ "?" ++ "x";
              "Internal Rate of Return (IRR): " ++ irr_text ++ "%";
              "Total Profit: $" ++ profit_text ]%string |}).
Proof.
  apply (script_runs_to_its_end
           (irr_returning (decimal 2747548783981961 16)) (fun _ => "?"%string)
           (-400000) 2 0 650000 {| cash_flows_object := []; stdout := [] |}).
  - discriminate.
  - vm_compute. reflexivity.
  - vm_compute. reflexivity.
  - vm_compute. reflexivity.
  - vm_compute. discriminate.
  - right. eexists. split; [reflexivity|]. vm_compute. discriminate.
Defined.
